(** * Realtime disaster dashboard: feed proxy (server.js) and renderer (app.js)

    A shallow embedding of the four feed routes of [server.js] and of the
    earthquake and flood rendering of [app.js], with the properties the
    specification states about them.

    - [JS]     : JavaScript values, JSON documents, truthiness, property
                 access, exceptions as an error monad, [JSON.stringify].
    - [Server] : the four route handlers over an explicit network.
    - [App]    : [fetchJson] and the earthquake / flood blocks of [init]. *)

From Stdlib Require Import List String Ascii Bool ZArith QArith Qabs Qpower.
From Stdlib Require Import Qround Lia Psatz.
From Stdlib Require Import DecimalString.
From Stdlib Require Import Sorting.Sorted Sorting.Permutation.
Import ListNotations.

Set Implicit Arguments.
Set Warnings "-register-all".

(* ===================================================================== *)
(** ** JavaScript values                                                  *)
(* ===================================================================== *)

Module JS.

Local Open Scope string_scope.

(** *** Numbers

    A number is a finite IEEE 754 double, kept as the rational it denotes:
    comparisons of doubles are exact, and the sign of a rounded difference
    is the sign of the exact one.  A numeral of a document and the result of
    an addition are rounded to the nearest double, ties to even. *)

Definition pow2 (e : Z) : Q := Qpower 2 e.

(** The largest [k] with [2^k <= a], for a positive [a]. *)
Definition floor_log2 (a : Q) : Z :=
  let k := (Z.log2 (Qnum a) - Z.log2 (Zpos (Qden a)))%Z in
  if Qle_bool (pow2 k) a then k else (k - 1)%Z.

(** The nearest integer of a non-negative rational, ties to even. *)
Definition round_half_even (x : Q) : Z :=
  let n := Qnum x in
  let d := Zpos (Qden x) in
  let m := (n / d)%Z in
  match (2 * (n mod d) ?= d)%Z with
  | Lt => m
  | Gt => (m + 1)%Z
  | Eq => if Z.even m then m else (m + 1)%Z
  end.

(** Rounding to binary64: 53 significant bits, exponents down to the
    subnormal [2^-1074].  A magnitude that rounds to [2^1024] or more has no
    finite double ([Infinity] in JavaScript) and is left as it is: such
    numbers are outside this representation. *)
Definition nearest_double (q : Q) : Q :=
  if Qeq_bool q 0 then 0
  else
    let a := Qabs q in
    let e := Z.max (floor_log2 a - 52) (-1074) in
    let r := Qred (inject_Z (round_half_even (a * pow2 (- e))) * pow2 e) in
    if Qle_bool (pow2 1024) r then q
    else if Qle_bool 0 q then r else Qred (- r).

(** The rounding of a number from 1 up, before the test of its range: a
    multiple of the unit in the last place. *)
Definition on_grid (q : Q) : Q :=
  inject_Z (round_half_even (q * pow2 (- (floor_log2 q - 52))))
  * pow2 (floor_log2 q - 52).

(** *** Documents and values *)

(** A JSON document, as it travels over HTTP: an object by its members in
    the order of the text, repeated keys included; a numeral by a rational
    that rounds to the double it is read as.  [JSON.stringify] writes a
    double as the shortest decimal that is read back as the same double;
    here that numeral is given by the double itself. *)
Inductive json : Type :=
| JNull
| JBool (b : bool)
| JNum (q : Q)
| JStr (s : string)
| JArr (items : list json)
| JObj (members : list (string * json)).

(** A run-time value.  Strings are sequences of code units (here the code
    units below 256).  An object is its own properties in the order
    JavaScript lists them; [VNative] is a built-in function reached through
    a prototype. *)
Inductive value : Type :=
| VUndef
| VNull
| VBool (b : bool)
| VNum (q : Q)
| VStr (s : string)
| VArr (items : list value)
| VObj (props : list (string * value))
| VNative (name : string).

(** A property name that is an array index: a decimal numeral without sign
    or leading zero, below [2^32 - 1]. *)
Definition is_digit (c : ascii) : bool :=
  ((48 <=? nat_of_ascii c) && (nat_of_ascii c <=? 57))%nat.

Fixpoint digits_value (s : string) (acc : N) : option N :=
  match s with
  | EmptyString => Some acc
  | String c s' =>
      if is_digit c
      then digits_value s' (10 * acc + N.of_nat (nat_of_ascii c - 48))%N
      else None
  end.

Definition array_index (k : string) : option N :=
  match k with
  | EmptyString => None
  | String c rest =>
      if Ascii.eqb c "0"
      then match rest with EmptyString => Some 0%N | _ => None end
      else match digits_value k 0 with
           | Some n => if (n <? 4294967295)%N then Some n else None
           | None => None
           end
  end.

(** Whether a new property [k] is listed before the existing property
    [k']: array indices come first, in ascending order, then the other
    names in the order of their creation. *)
Definition listed_before (k k' : string) : bool :=
  match array_index k, array_index k' with
  | Some i, Some j => (i <? j)%N
  | Some _, None => true
  | None, _ => false
  end.

(** Own-property lookup: first binding of the key. *)
Fixpoint lookup (A : Type) (k : string) (ps : list (string * A)) : option A :=
  match ps with
  | [] => None
  | (k', x) :: ps' => if String.eqb k k' then Some x else lookup k ps'
  end.

Definition has_key (A : Type) (k : string) (ps : list (string * A)) : bool :=
  match lookup k ps with Some _ => true | None => false end.

(** [obj[k] = x] on an object that has no property [k] yet. *)
Fixpoint create (A : Type) (k : string) (x : A) (ps : list (string * A))
  : list (string * A) :=
  match ps with
  | [] => [(k, x)]
  | p :: ps' =>
      if listed_before k (fst p) then (k, x) :: p :: ps'
      else p :: create k x ps'
  end.

(** [obj[k] = x] on an object that has the property: it keeps its place and
    takes the new value. *)
Fixpoint replace (A : Type) (k : string) (x : A) (ps : list (string * A))
  : list (string * A) :=
  match ps with
  | [] => []
  | p :: ps' =>
      if String.eqb k (fst p) then (fst p, x) :: ps'
      else p :: replace k x ps'
  end.

Definition assign (A : Type) (k : string) (x : A) (ps : list (string * A))
  : list (string * A) :=
  if has_key k ps then replace k x ps else create k x ps.

(** The object built from the members of a document, read left to right. *)
Definition assign_all (A : Type) (ms : list (string * A)) : list (string * A) :=
  fold_left (fun acc m => assign (fst m) (snd m) acc) ms [].

(** [JSON.parse]: the value a document denotes.  A numeral is rounded to a
    double; of a repeated key the last member wins. *)
Fixpoint of_json (j : json) : value :=
  match j with
  | JNull => VNull
  | JBool b => VBool b
  | JNum q => VNum (nearest_double q)
  | JStr s => VStr s
  | JArr js => VArr (map of_json js)
  | JObj ms =>
      VObj (assign_all
              (map (fun m : string * json => let (k, x) := m in (k, of_json x)) ms))
  end.

(** Structural induction through the lists of a document. *)
Section JsonInduction.

Variable P : json -> Prop.
Hypothesis HNull : P JNull.
Hypothesis HBool : forall b, P (JBool b).
Hypothesis HNum : forall q, P (JNum q).
Hypothesis HStr : forall s, P (JStr s).
Hypothesis HArr : forall js, Forall P js -> P (JArr js).
Hypothesis HObj : forall ms, Forall (fun m => P (snd m)) ms -> P (JObj ms).

Fixpoint json_nested_ind (j : json) : P j :=
  match j with
  | JNull => HNull
  | JBool b => HBool b
  | JNum q => HNum q
  | JStr s => HStr s
  | JArr js =>
      HArr ((fix items (l : list json) : Forall P l :=
               match l with
               | [] => Forall_nil P
               | x :: l' => Forall_cons x (json_nested_ind x) (items l')
               end) js)
  | JObj ms =>
      HObj ((fix members (l : list (string * json))
                : Forall (fun m => P (snd m)) l :=
               match l with
               | [] => Forall_nil _
               | m :: l' =>
                   Forall_cons m
                     (match m return P (snd m) with
                      | (_, x) => json_nested_ind x
                      end)
                     (members l')
               end) ms)
  end.

End JsonInduction.

(** [JSON.stringify], up to the text: [None] is the [undefined] result.
    Inside an array an unserialisable item becomes [null]; inside an object
    the property is left out. *)
Fixpoint stringify (v : value) : option json :=
  match v with
  | VUndef => None
  | VNative _ => None
  | VNull => Some JNull
  | VBool b => Some (JBool b)
  | VNum q => Some (JNum q)
  | VStr s => Some (JStr s)
  | VArr xs =>
      Some (JArr (map (fun x => match stringify x with
                                | Some j => j
                                | None => JNull
                                end) xs))
  | VObj ps =>
      Some (JObj (flat_map (fun p : string * value => let (k, x) := p in
                                     match stringify x with
                                     | Some j => [(k, j)]
                                     | None => []
                                     end) ps))
  end.


(** ToBoolean. *)
Definition truthy (v : value) : bool :=
  match v with
  | VUndef | VNull => false
  | VBool b => b
  | VNum q => negb (Qeq_bool q 0)
  | VStr s => negb (String.eqb s EmptyString)
  | VArr _ | VObj _ | VNative _ => true
  end.

Definition isArray (v : value) : bool :=
  match v with VArr _ => true | _ => false end.

(** *** Exceptions *)

Inductive error : Type :=
| NetworkError (reason : string)
| TimeoutError (ms : Z)
| StatusError (status : Z)
| ParseError (reason : string)
| TypeError (reason : string).

(** Decimal numerals, as template literals and messages print them. *)
Definition decimal (n : Z) : string := NilZero.string_of_int (Z.to_int n).

Definition message (e : error) : string :=
  match e with
  | NetworkError why => why
  | TimeoutError ms => "timeout of " ++ decimal ms ++ "ms exceeded"
  | StatusError st => "Request failed with status code " ++ decimal st
  | ParseError why => why
  | TypeError why => why
  end.

Inductive result (A : Type) : Type :=
| Ok (a : A)
| Throw (e : error).

Arguments Ok {A} a.
Arguments Throw {A} e.

Definition bind (A B : Type) (m : result A) (k : A -> result B) : result B :=
  match m with
  | Ok a => k a
  | Throw e => Throw e
  end.

Notation "x <- m ;; k" := (bind m (fun x => k))
  (at level 61, m at next level, right associativity).

(** [try { body } catch (err) { handler }]. *)
Definition try_catch (A : Type) (body : result A) (handler : error -> A) : A :=
  match body with
  | Ok a => a
  | Throw e => handler e
  end.

(** [xs.map(f)] where [f] may throw: left to right, first exception wins. *)
Fixpoint mapM (A B : Type) (f : A -> result B) (xs : list A) : result (list B) :=
  match xs with
  | [] => Ok []
  | x :: xs' => y <- f x ;; ys <- mapM f xs' ;; Ok (y :: ys)
  end.

(** *** Property access *)

(** [v.k].  Reading a property of [undefined] or [null] throws.  Of the
    property names this program reads, only [link] is inherited from a
    prototype ([String.prototype.link]); every other one is an own property
    or [undefined]. *)
Definition get (v : value) (k : string) : result value :=
  match v with
  | VUndef => Throw (TypeError "Cannot read properties of undefined")
  | VNull => Throw (TypeError "Cannot read properties of null")
  | VObj ps => Ok (match lookup k ps with Some x => x | None => VUndef end)
  | VStr _ => Ok (if String.eqb k "link" then VNative "String.prototype.link"
                  else VUndef)
  | VBool _ | VNum _ | VArr _ | VNative _ => Ok VUndef
  end.

(** ToPrimitive, as a template literal, string concatenation, [new Date(v)]
    and a DOM string attribute apply it.  On an object it calls [valueOf] and
    [toString]; a parsed object inherits both, unless it has a property
    [toString] of its own, which is no function: then no primitive results
    and a TypeError is thrown.  An array joins the conversions of its
    items. *)
Fixpoint convertible (v : value) : bool :=
  match v with
  | VObj ps => negb (has_key "toString" ps)
  | VArr xs => forallb convertible xs
  | _ => true
  end.

Definition ToPrimitive (v : value) : result value :=
  if convertible v then Ok v
  else Throw (TypeError "Cannot convert object to primitive value").

(** First code unit of a string, as a string. *)
Definition char_at (s : string) (i : nat) : value :=
  match String.get i s with
  | Some c => VStr (String c EmptyString)
  | None => VUndef
  end.

(** [v[i]]: an array element, a code unit of a string, or the property
    named by the numeral. *)
Definition index (v : value) (i : nat) : result value :=
  match v with
  | VArr xs => Ok (nth i xs VUndef)
  | VStr s => Ok (char_at s i)
  | _ => get v (decimal (Z.of_nat i))
  end.

(** [a && b] and [a || b] with a right operand that may throw. *)
Definition and_then (a : value) (b : result value) : result value :=
  if truthy a then b else Ok a.

Definition or_else (a : value) (b : value) : value :=
  if truthy a then a else b.

End JS.

(* ===================================================================== *)
(** ** server.js                                                          *)
(* ===================================================================== *)

Module Server.

Import JS.
Local Open Scope string_scope.

(** *** The outside world: axios, xml2js, cheerio *)

(** A query parameter of an outbound request; [PJsonText v] is the text
    [JSON.stringify(v)]. *)
Inductive param : Type :=
| PStr (s : string)
| PNum (n : Z)
| PJsonText (v : value).

Record request : Type := {
  url : string;
  params : list (string * param);
  timeout : Z
}.

(** What the upstream sent back: a JSON document, or text that is not
    JSON (XML, HTML, a truncated or garbled document). *)
Inductive content : Type :=
| Json (doc : json)
| Text (raw : string).

(** The upstream interaction of one [axios.get]. *)
Inductive outcome : Type :=
| Unreachable (reason : string)
| NoReplyInTime
| Reply (status : Z) (sent : content).

Definition network : Type := request -> outcome.

(** The default [transformResponse] of axios: a body that parses as JSON is
    replaced by the parsed value, any other body stays the string it was. *)
Definition transformResponse (c : content) : value :=
  match c with
  | Json doc => of_json doc
  | Text raw => VStr raw
  end.

Record axios_response : Type := {
  data : value;
  http_status : Z
}.

(** [await axios.get(url, config)]: rejects when no reply arrives, when the
    timeout passes, and (default [validateStatus]) when the status is not
    2xx. *)
Definition axios_get (net : network) (rq : request) : result axios_response :=
  match net rq with
  | Unreachable why => Throw (NetworkError why)
  | NoReplyInTime => Throw (TimeoutError (timeout rq))
  | Reply st c =>
      if ((200 <=? st) && (st <? 300))%Z
      then Ok {| data := transformResponse c; http_status := st |}
      else Throw (StatusError st)
  end.

(** The document tree cheerio queries. *)
Inductive node : Type :=
| TextNode (chars : string)
| Element (tag : string) (children : list node).

(** What one request leaves behind: the lines written with
    [console.error], the HTTP status and the JSON body. *)
Record served : Type := {
  console : list string;
  status : Z;
  body : option json
}.

(** [res.json(obj)] and [res.status(code).json(obj)]. *)
Definition res_json (obj : value) : served :=
  {| console := []; status := 200; body := stringify obj |}.

Definition res_status_json (log : list string) (code : Z) (obj : value) : served :=
  {| console := log; status := code; body := stringify obj |}.

(** *** cheerio selections *)

(** [$(n).text()]: the text of all descendants, in document order. *)
Fixpoint text_of (n : node) : string :=
  match n with
  | TextNode s => s
  | Element _ cs => fold_right (fun c acc => text_of c ++ acc) EmptyString cs
  end.

Definition is_tag (t : string) (n : node) : bool :=
  match n with
  | TextNode _ => false
  | Element t' _ => String.eqb t t'
  end.

(** All strict descendants of [n], in document order. *)
Fixpoint descendants (n : node) : list node :=
  match n with
  | TextNode _ => []
  | Element _ cs => flat_map (fun c => c :: descendants c) cs
  end.

(** [$(n).find(t)]. *)
Definition find (t : string) (n : node) : list node :=
  filter (is_tag t) (descendants n).

(** [$(t)] on the loaded document. *)
Definition select (t : string) (doc : list node) : list node :=
  filter (is_tag t) (flat_map (fun c => c :: descendants c) doc).

(** [$('table tr')]: the [tr] elements that have a [table] ancestor. *)
Fixpoint table_tr (in_table : bool) (n : node) : list node :=
  match n with
  | TextNode _ => []
  | Element t cs =>
      ((if in_table && String.eqb t "tr" then [n] else [])
       ++ flat_map (table_tr (in_table || String.eqb t "table")) cs)%list
  end.

Definition select_table_tr (doc : list node) : list node :=
  flat_map (table_tr false) doc.

(** [$(tds[i]).text()]: an index past the end wraps [undefined], an empty
    selection, whose text is the empty string. *)
Definition text_at (tds : list node) (i : nat) : string :=
  match nth_error tds i with
  | Some n => text_of n
  | None => EmptyString
  end.

(** *** String.prototype.trim *)

(** White space and line terminators among the code units below 256. *)
Definition is_space (c : ascii) : bool :=
  let n := nat_of_ascii c in
  ((9 <=? n) && (n <=? 13) || (n =? 32) || (n =? 160))%nat.

Fixpoint trim_start (s : string) : string :=
  match s with
  | EmptyString => EmptyString
  | String c s' => if is_space c then trim_start s' else s
  end.

Fixpoint trim_end (s : string) : string :=
  match s with
  | EmptyString => EmptyString
  | String c s' =>
      let t := trim_end s' in
      if is_space c && String.eqb t EmptyString then EmptyString else String c t
  end.

Definition trim (s : string) : string := trim_end (trim_start s).

(** *** The route handlers *)

(** The outbound request of each route: a fixed URL, the query parameters
    and the timeout in milliseconds. *)
Definition earthquakes_request : request :=
  {| url := "https://earthquake.usgs.gov/earthquakes/feed/v1.0/summary/all_day.geojson";
     params := [];
     timeout := 10000 |}.

Definition tsunami_request : request :=
  {| url := "https://www.tsunami.gov/events/xml/PAAQAtom.xml";
     params := [];
     timeout := 10000 |}.

Definition volcanoes_request : request :=
  {| url := "https://volcano.si.edu/gvp_currenteruptions.cfm";
     params := [];
     timeout := 10000 |}.

Definition floods_request : request :=
  {| url := "https://api.reliefweb.int/v2/reports";
     params :=
       [("appname", PStr "rtddr-demo");
        ("limit", PNum 6);
        ("sort", PStr "date:desc");
        ("query", PJsonText
                    (VObj [("query", VObj [("value", VStr "flood");
                                           ("operator", VStr "OR")])]))];
     timeout := 12000 |}.

(** The four feed routes. *)
Inductive route : Type := Earthquakes | Tsunami | Volcanoes | Floods.

Definition path (rt : route) : string :=
  match rt with
  | Earthquakes => "/api/earthquakes"
  | Tsunami => "/api/tsunami"
  | Volcanoes => "/api/volcanoes"
  | Floods => "/api/floods"
  end.

Definition request_of (rt : route) : request :=
  match rt with
  | Earthquakes => earthquakes_request
  | Tsunami => tsunami_request
  | Volcanoes => volcanoes_request
  | Floods => floods_request
  end.

Section Handlers.

Variable net : network.
(** [new xml2js.Parser({explicitArray: false}).parseStringPromise]. *)
Variable parseString : value -> result value.
(** [cheerio.load], as the top-level nodes of the document. *)
Variable load : value -> result (list node).

(** 1) Earthquakes: USGS GeoJSON, passed through. *)
Definition earthquakes : served :=
  try_catch
    (r <- axios_get net earthquakes_request ;;
     Ok (res_json (VObj [("ok", VBool true); ("source", VStr "usgs");
                         ("data", data r)])))
    (fun err =>
       res_status_json ["earthquakes error " ++ message err] 500
         (VObj [("ok", VBool false);
                ("error", VStr "Failed to fetch earthquakes")])).

(** 2) Tsunami: the ATOM feed of tsunami.gov. *)

(** [parsed.feed && parsed.feed.entry
       ? (Array.isArray(parsed.feed.entry) ? parsed.feed.entry
                                           : [parsed.feed.entry])
       : []] *)
Definition entries_of (parsed : value) : result (list value) :=
  feed <- get parsed "feed" ;;
  c <- and_then feed (feed' <- get parsed "feed" ;; get feed' "entry") ;;
  if truthy c then
    feed' <- get parsed "feed" ;;
    entry <- get feed' "entry" ;;
    match entry with
    | VArr es => Ok es
    | _ => Ok [entry]
    end
  else Ok [].

(** [e.summary && e.summary._ ? e.summary._ : (e.summary || '')] *)
Definition summary_of (e : value) : result value :=
  s <- get e "summary" ;;
  c <- and_then s (s' <- get e "summary" ;; get s' "_") ;;
  if truthy c then
    s' <- get e "summary" ;; get s' "_"
  else
    s' <- get e "summary" ;; Ok (or_else s' (VStr EmptyString)).

(** [Array.isArray(e.link) ? e.link[0].$.href
                           : (e.link && e.link.$ && e.link.$.href) || ''] *)
Definition link_of (e : value) : result value :=
  l <- get e "link" ;;
  if isArray l then
    l' <- get e "link" ;;
    first <- index l' 0 ;;
    attrs <- get first "$" ;;
    get attrs "href"
  else
    c <- and_then l (l' <- get e "link" ;; get l' "$") ;;
    c' <- and_then c (l' <- get e "link" ;; a <- get l' "$" ;; get a "href") ;;
    Ok (or_else c' (VStr EmptyString)).

(** The arrow function given to [entries.map]. *)
Definition normalize_entry (e : value) : result value :=
  id <- get e "id" ;;
  title <- get e "title" ;;
  updated <- get e "updated" ;;
  summary <- summary_of e ;;
  link <- link_of e ;;
  Ok (VObj [("id", id); ("title", title); ("updated", updated);
            ("summary", summary); ("link", link)]).

Definition tsunami : served :=
  try_catch
    (r <- axios_get net tsunami_request ;;
     parsed <- parseString (data r) ;;
     entries <- entries_of parsed ;;
     out <- mapM normalize_entry entries ;;
     Ok (res_json (VObj [("ok", VBool true); ("source", VStr "tsunami.gov");
                         ("data", VArr out)])))
    (fun err =>
       res_status_json ["tsunami error " ++ message err] 500
         (VObj [("ok", VBool false);
                ("error", VStr "Failed to fetch tsunami feed")])).

(** 3) Volcanoes: the GVP current-eruptions page. *)

Definition eruption (name status : string) : value :=
  VObj [("name", VStr name); ("status", VStr status)].

(** The callback of [$('table tr').each]. *)
Definition tr_step (eruptions : list value) (tr : node) : list value :=
  if (8 <=? List.length eruptions)%nat then eruptions
  else
    let tds := find "td" tr in
    if (1 <=? List.length tds)%nat then
      let name := trim (text_at tds 0) in
      if String.eqb name EmptyString then eruptions
      else
        let status := trim (text_at tds 1) in
        (eruptions ++ [eruption name status])%list
    else eruptions.

(** The callback of [$('li').each]. *)
Definition li_step (eruptions : list value) (li : node) : list value :=
  if (8 <=? List.length eruptions)%nat then eruptions
  else
    let text := trim (text_of li) in
    if (10 <? String.length text)%nat
    then (eruptions ++ [eruption (substring 0 60 text) EmptyString])%list
    else eruptions.

Definition table_strategy (doc : list node) : list value :=
  fold_left tr_step (select_table_tr doc) [].

Definition fallback_strategy (doc : list node) (eruptions : list value) : list value :=
  fold_left li_step (select "li" doc) eruptions.

Definition scrape (doc : list node) : list value :=
  let eruptions := table_strategy doc in
  let eruptions :=
    if (List.length eruptions =? 0)%nat then fallback_strategy doc eruptions
    else eruptions in
  firstn 8 eruptions.

Definition volcanoes : served :=
  try_catch
    (r <- axios_get net volcanoes_request ;;
     doc <- load (data r) ;;
     Ok (res_json (VObj [("ok", VBool true); ("source", VStr "gvp");
                         ("data", VArr (scrape doc))])))
    (fun err =>
       res_status_json ["volcanoes error " ++ message err] 500
         (VObj [("ok", VBool false);
                ("error", VStr "Failed to fetch volcano info")])).

(** 4) Floods: ReliefWeb report search, passed through. *)
Definition floods : served :=
  try_catch
    (r <- axios_get net floods_request ;;
     Ok (res_json (VObj [("ok", VBool true); ("source", VStr "reliefweb");
                         ("data", data r)])))
    (fun err =>
       res_status_json ["floods error " ++ message err] 500
         (VObj [("ok", VBool false);
                ("error", VStr "Failed to fetch flood reports")])).

(** The routing table. *)
Definition handle (rt : route) : served :=
  match rt with
  | Earthquakes => earthquakes
  | Tsunami => tsunami
  | Volcanoes => volcanoes
  | Floods => floods
  end.

End Handlers.

End Server.

(* ===================================================================== *)
(** ** app.js                                                             *)
(* ===================================================================== *)

Module App.

Import JS.
Local Open Scope string_scope.

(** [fetchJson(path)]: the parsed body of a reply with a 2xx status, and
    [null] when the fetch rejects ([None]), the status is not 2xx or the
    body is not JSON. *)
Definition fetchJson (reply : option Server.served) : value :=
  match reply with
  | None => VNull
  | Some r =>
      if ((200 <=? Server.status r) && (Server.status r <? 300))%Z then
        match Server.body r with
        | Some doc => of_json doc
        | None => VNull
        end
      else VNull
  end.

(** *** Numbers *)

(** The result of an arithmetic operator. *)
Inductive number : Type :=
| NaN
| Num (q : Q).

Definition sub (a b : number) : number :=
  match a, b with
  | Num x, Num y => Num (x - y)
  | _, _ => NaN
  end.

(** [c > 0], the test a sort makes on a comparator result ([NaN] counts
    as [+0]). *)
Definition positive (c : number) : bool :=
  match c with
  | NaN => false
  | Num q => negb (Qle_bool q 0)
  end.

(** [mag >= 5 ? 'red' : (mag >= 3 ? 'orange' : 'yellow')] *)
Definition marker_color (mag : Q) : string :=
  if Qle_bool 5 mag then "red"
  else if Qle_bool 3 mag then "orange"
  else "yellow".

(** [Math.max(0, mag)] *)
Definition max0 (mag : Q) : Q := if Qle_bool 0 mag then mag else 0%Q.

(** [4 + Math.max(0, mag)]: a sum of doubles is the exact sum, rounded. *)
Definition marker_radius (mag : Q) : Q := nearest_double (4 + max0 mag).

(** *** Earthquakes *)

(** One entry of the list [#eq-list]: the pieces its [innerHTML] is built
    from, and the feature its click handler recentres the map on. *)
Record list_item : Type := {
  shown_mag : Q;
  shown_place : value;
  shown_time : value;
  target : value
}.

(** One [L.circleMarker] added to the map. *)
Record marker : Type := {
  lat : value;
  lon : value;
  radius : Q;
  color : string;
  fillColor : string;
  fillOpacity : Q;
  popup_url : value
}.

Inductive quake_panel : Type :=
| QuakesUnavailable
| Quakes (count : nat) (items : list list_item) (markers : list marker).

Section Render.

(** ToNumber on strings and objects (the StringToNumber grammar, and
    ToPrimitive, which may throw) is left open. *)
Variable coerce : value -> result number.

(** [L.circleMarker([lat, lon], options).addTo(map)]: Leaflet is loaded by
    the page, not part of this code; it rejects some coordinates with an
    exception. *)
Variable circleMarker : value -> value -> result unit.

Definition ToNumber (v : value) : result number :=
  match v with
  | VUndef => Ok NaN
  | VNull => Ok (Num 0)
  | VBool b => Ok (Num (if b then 1 else 0))
  | VNum q => Ok (Num q)
  | _ => coerce v
  end.

(** [(a, b) => b.properties.mag - a.properties.mag] *)
Definition by_mag_desc (a b : value) : result number :=
  pb <- get b "properties" ;;
  mb <- get pb "mag" ;;
  pa <- get a "properties" ;;
  ma <- get pa "mag" ;;
  nb <- ToNumber mb ;;
  na <- ToNumber ma ;;
  Ok (sub nb na).

(** [Array.prototype.sort] is stable, and for a consistent comparator its
    result is determined; insertion sort computes it.  [x] comes from
    before [sorted] in the array, so it moves behind [y] only when the
    comparator puts it strictly after. *)
Fixpoint insert (cmp : value -> value -> result number) (x : value)
    (sorted : list value) : result (list value) :=
  match sorted with
  | [] => Ok [x]
  | y :: ys =>
      c <- cmp x y ;;
      if positive c then rest <- insert cmp x ys ;; Ok (y :: rest)
      else Ok (x :: sorted)
  end.

Fixpoint sort (cmp : value -> value -> result number) (xs : list value)
    : result (list value) :=
  match xs with
  | [] => Ok []
  | x :: xs' => s <- sort cmp xs' ;; insert cmp x s
  end.

(** [mag.toFixed(1)] exists on numbers only. *)
Definition toFixed_receiver (mag : value) : result Q :=
  match mag with
  | VNum q => Ok q
  | _ => Throw (TypeError "mag.toFixed is not a function")
  end.

(** The body of the [forEach] over the sorted features.  [new Date(time)]
    and the two template literals convert [time], [place] and the [url] to
    primitives; the list entry is built before the marker, the marker is
    placed before its popup text is. *)
Definition render_feature (f : value) : result (list_item * marker) :=
  props <- get f "properties" ;;
  m <- get props "mag" ;;
  let mag := or_else m (VNum 0) in
  props <- get f "properties" ;;
  p <- get props "place" ;;
  let place := or_else p (VStr "Unknown") in
  props <- get f "properties" ;;
  t <- get props "time" ;;
  time <- ToPrimitive t ;;
  mag <- toFixed_receiver mag ;;
  place <- ToPrimitive place ;;
  let li := {| shown_mag := mag; shown_place := place; shown_time := time;
               target := f |} in
  let color := marker_color mag in
  geometry <- get f "geometry" ;;
  coordinates <- get geometry "coordinates" ;;
  lat1 <- index coordinates 1 ;;
  geometry <- get f "geometry" ;;
  coordinates <- get geometry "coordinates" ;;
  lon0 <- index coordinates 0 ;;
  _ <- circleMarker lat1 lon0 ;;
  props <- get f "properties" ;;
  u <- get props "url" ;;
  u <- ToPrimitive u ;;
  Ok (li, {| lat := lat1; lon := lon0; radius := marker_radius mag;
             color := color; fillColor := color;
             fillOpacity := nearest_double (7 # 10);
             popup_url := u |}).

(** [features.forEach(body)], appending to the list and to the map.  An
    exception of the body leaves [init]; what was appended before it is not
    kept in the result. *)
Fixpoint forEach (fs : list value) (items : list list_item)
    (markers : list marker) : result (list list_item * list marker) :=
  match fs with
  | [] => Ok (items, markers)
  | f :: fs' =>
      r <- render_feature f ;;
      forEach fs' (items ++ [fst r])%list (markers ++ [snd r])%list
  end.

(** The earthquake block of [init], given what [fetchJson] returned. *)
Definition render_quakes (eq : value) : result quake_panel :=
  c <- and_then eq (get eq "ok") ;;
  c <- and_then c (get eq "data") ;;
  c <- and_then c (d <- get eq "data" ;; f <- get d "features" ;;
                   Ok (VBool (isArray f))) ;;
  if truthy c then
    d <- get eq "data" ;;
    features <- get d "features" ;;
    match features with
    | VArr fs =>
        sorted <- sort by_mag_desc fs ;;
        r <- forEach (firstn 50 sorted) [] [] ;;
        Ok (Quakes (List.length fs) (fst r) (snd r))
    | _ => Ok QuakesUnavailable
    end
  else Ok QuakesUnavailable.

End Render.

(** *** Floods *)

(** The [innerHTML] of one entry of [#flood-list]:
    [url ? <a href=url>title</a> : title]. *)
Inductive flood_li : Type :=
| Anchor (href : value) (text : value)
| Plain (text : value).

Inductive flood_panel : Type :=
| FloodsUnavailable
| FloodList (items : list flood_li).

(** [r.fields && r.fields.title ? r.fields.title : 'Report'] *)
Definition flood_title (r : value) : result value :=
  fields <- get r "fields" ;;
  c <- and_then fields (fields' <- get r "fields" ;; get fields' "title") ;;
  if truthy c then fields' <- get r "fields" ;; get fields' "title"
  else Ok (VStr "Report").

(** [r.fields && r.fields.url ? r.fields.url[0] : null] *)
Definition flood_url (r : value) : result value :=
  fields <- get r "fields" ;;
  c <- and_then fields (fields' <- get r "fields" ;; get fields' "url") ;;
  if truthy c then
    fields' <- get r "fields" ;;
    u <- get fields' "url" ;;
    index u 0
  else Ok VNull.

(** The callback of [flood.data.data.forEach].  The template literal
    converts the url, then the title, to a string; without a url the
    [innerHTML] attribute converts the title. *)
Definition flood_entry (r : value) : result flood_li :=
  title <- flood_title r ;;
  url <- flood_url r ;;
  if truthy url then
    url <- ToPrimitive url ;;
    title <- ToPrimitive title ;;
    Ok (Anchor url title)
  else
    title <- ToPrimitive title ;;
    Ok (Plain title).

(** The flood block of [init]. *)
Definition render_floods (flood : value) : result flood_panel :=
  c <- and_then flood (get flood "ok") ;;
  c <- and_then c (get flood "data") ;;
  c <- and_then c (d <- get flood "data" ;; get d "data") ;;
  if truthy c then
    d <- get flood "data" ;;
    reports <- get d "data" ;;
    match reports with
    | VArr rs => items <- mapM flood_entry rs ;; Ok (FloodList items)
    | _ => Throw (TypeError "flood.data.data.forEach is not a function")
    end
  else Ok FloodsUnavailable.

End App.

(* ===================================================================== *)
(** ** The documented contract                                            *)
(* ===================================================================== *)

Module Contract.

Import JS Server.
Local Open Scope string_scope.

(** The failure column of the route table. *)
Definition documented_error (rt : route) : string :=
  match rt with
  | Earthquakes => "Failed to fetch earthquakes"
  | Tsunami => "Failed to fetch tsunami feed"
  | Volcanoes => "Failed to fetch volcano info"
  | Floods => "Failed to fetch flood reports"
  end.

(** The source names of the success column. *)
Definition documented_source (rt : route) : string :=
  match rt with
  | Earthquakes => "usgs"
  | Tsunami => "tsunami.gov"
  | Volcanoes => "gvp"
  | Floods => "reliefweb"
  end.

Definition failure_envelope (rt : route) : json :=
  JObj [("ok", JBool false); ("error", JStr (documented_error rt))].

Definition success_envelope (rt : route) (d : json) : json :=
  JObj [("ok", JBool true); ("source", JStr (documented_source rt));
        ("data", d)].

(** The two shapes of a reply. *)
Definition failed (rt : route) (s : served) : Prop :=
  status s = 500%Z /\ body s = Some (failure_envelope rt).

Definition succeeded (rt : route) (s : served) : Prop :=
  status s = 200%Z /\ exists d, body s = Some (success_envelope rt d).

Definition is_2xx (st : Z) : bool := ((200 <=? st) && (st <? 300))%Z.

Definition throws (A : Type) (r : result A) : bool :=
  match r with
  | Throw _ => true
  | Ok _ => false
  end.

Definition not_json (c : content) : bool :=
  match c with
  | Text _ => true
  | Json _ => false
  end.

(** The failure modes as the specification lists them for every route:
    network failure, timeout, a status that is not 2xx, a body that does
    not parse (as JSON on the two pass-through routes, as XML on the
    tsunami route, as HTML on the volcano route). *)
Definition listed_failure (rt : route) (parseString : value -> result value)
    (load : value -> result (list node)) (o : outcome) : bool :=
  match o with
  | Unreachable _ => true
  | NoReplyInTime => true
  | Reply st c =>
      negb (is_2xx st)
      || match rt with
         | Earthquakes | Floods => not_json c
         | Tsunami => throws (parseString (transformResponse c))
         | Volcanoes => throws (load (transformResponse c))
         end
  end.

(** The failures a handler can observe: a rejected [axios.get], and a
    parsing step of its own that throws. *)
Definition raised (rt : route) (parseString : value -> result value)
    (load : value -> result (list node)) (o : outcome) : bool :=
  match o with
  | Unreachable _ => true
  | NoReplyInTime => true
  | Reply st c =>
      negb (is_2xx st)
      || match rt with
         | Earthquakes | Floods => false
         | Tsunami => throws (parseString (transformResponse c))
         | Volcanoes => throws (load (transformResponse c))
         end
  end.

(** Values whose properties can be read. *)
Definition object_coercible (v : value) : bool :=
  match v with
  | VUndef | VNull => false
  | _ => true
  end.

(** A link field the entry mapping can read: not a sequence, or a sequence
    whose first element carries attributes. *)
Definition readable_link (l : value) : bool :=
  match l with
  | VArr [] => false
  | VArr (first :: _) =>
      match get first "$" with
      | Ok attrs => object_coercible attrs
      | Throw _ => false
      end
  | _ => true
  end.

Definition normalizable (e : value) : bool :=
  match get e "link" with
  | Ok l => readable_link l
  | Throw _ => false
  end.

(** The feed was fetched and parsed. *)
Definition tsunami_parsed (net : network)
    (parseString : value -> result value) (parsed : value) : Prop :=
  exists st c,
    net tsunami_request = Reply st c /\ is_2xx st = true
    /\ parseString (transformResponse c) = Ok parsed.

(** The success reply of the tsunami route with the entries [out]. *)
Definition tsunami_lists (out : list value) : served :=
  res_json (VObj [("ok", VBool true); ("source", VStr "tsunami.gov");
                  ("data", VArr out)]).

(** A single link element that carries no href attribute (a missing link
    field included). *)
Definition lacks_href (l : value) : bool :=
  negb (isArray l)
  && match get l "$" with
     | Ok (VObj attrs) => negb (has_key "href" attrs)
     | _ => true
     end.

(** The entries a scan keeps, before the cap: those its callback would
    push. *)
Fixpoint picked (A B : Type) (pick : B -> option A) (bs : list B) : list A :=
  match bs with
  | [] => []
  | b :: bs' =>
      match pick b with
      | Some a => a :: picked pick bs'
      | None => picked pick bs'
      end
  end.

(** A row yields an entry when it has a cell and the first cell has text. *)
Definition tr_pick (tr : node) : option value :=
  let tds := find "td" tr in
  if (1 <=? List.length tds)%nat then
    let name := trim (text_at tds 0) in
    if String.eqb name EmptyString then None
    else Some (eruption name (trim (text_at tds 1)))
  else None.

(** A list item yields an entry when its trimmed text is longer than 10. *)
Definition li_pick (li : node) : option value :=
  let text := trim (text_of li) in
  if (10 <? String.length text)%nat
  then Some (eruption (substring 0 60 text) EmptyString)
  else None.

(** What [JSON.stringify] leaves of an array item. *)
Definition item_json (v : value) : json :=
  match stringify v with
  | Some j => j
  | None => JNull
  end.


(** The document [JSON.stringify] writes of the value [JSON.parse] read:
    numerals rounded to doubles, of a repeated key the last member, array
    indices before the other keys. *)
Fixpoint reserialised (j : json) : json :=
  match j with
  | JNum q => JNum (nearest_double q)
  | JArr js => JArr (map reserialised js)
  | JObj ms =>
      JObj (assign_all
              (map (fun m : string * json => let (k, x) := m in
                                             (k, reserialised x)) ms))
  | _ => j
  end.



(** *** The frontend *)

(** The magnitude of a feature as a number: [mag] when it is a number,
    zero when it is [null]. *)
Definition mag_number (f : value) : Q :=
  match get f "properties" with
  | Ok props =>
      match get props "mag" with
      | Ok (VNum q) => q
      | _ => 0
      end
  | Throw _ => 0
  end.

(** The place, time and url of a feature convert to strings. *)
Definition printable (f : value) : bool :=
  match get f "properties" with
  | Ok props =>
      match get props "place", get props "time", get props "url" with
      | Ok place, Ok time, Ok url =>
          convertible place && convertible time && convertible url
      | _, _, _ => false
      end
  | Throw _ => false
  end.

(** A feature of the GeoJSON feed, as far as the renderer reads it: a
    magnitude that is a number or [null], coordinates that can be indexed,
    and a place, a time and a url that convert to strings. *)
Definition renderable (f : value) : bool :=
  match get f "properties" with
  | Ok props =>
      match get props "mag" with
      | Ok (VNum _) | Ok VNull =>
          match get f "geometry" with
          | Ok geometry =>
              match get geometry "coordinates" with
              | Ok coordinates => object_coercible coordinates && printable f
              | Throw _ => false
              end
          | Throw _ => false
          end
      | _ => false
      end
  | Throw _ => false
  end.

(** Leaflet takes the marker of the feature. *)
Definition marked (circleMarker : value -> value -> result unit)
    (f : value) : bool :=
  match (geometry <- get f "geometry" ;;
         coordinates <- get geometry "coordinates" ;;
         lat <- index coordinates 1 ;;
         lon <- index coordinates 0 ;;
         circleMarker lat lon) with
  | Ok _ => true
  | Throw _ => false
  end.

(** [eq] is a success envelope whose [data.features] is the array [fs]. *)
Definition carries_features (eq : value) (fs : list value) : Prop :=
  truthy eq = true
  /\ exists ok d,
       get eq "ok" = Ok ok /\ truthy ok = true
       /\ get eq "data" = Ok d /\ truthy d = true
       /\ get d "features" = Ok (VArr fs).

(** Descending magnitude. *)
Definition mag_ge (a b : value) : Prop := (mag_number b <= mag_number a)%Q.

(** The stable sort by descending magnitude, without the exceptions. *)
Fixpoint insert_by_mag (x : value) (sorted : list value) : list value :=
  match sorted with
  | [] => [x]
  | y :: ys =>
      if App.positive (App.Num (mag_number y - mag_number x))
      then y :: insert_by_mag x ys
      else x :: sorted
  end.

Fixpoint sort_by_mag (fs : list value) : list value :=
  match fs with
  | [] => []
  | x :: xs => insert_by_mag x (sort_by_mag xs)
  end.

(** What a list entry shows of the feature it was made from. *)
Definition shows (f : value) (li : App.list_item) : Prop :=
  App.target li = f /\ (App.shown_mag li == mag_number f)%Q.



(** The magnitudes of the list entries of a rendered panel, in order. *)
Definition rendered_mags (p : result App.quake_panel) : list Q :=
  match p with
  | Ok (App.Quakes _ items _) => map App.shown_mag items
  | _ => []
  end.

(** The colours of the markers of a rendered panel, in order. *)
Definition rendered_colors (p : result App.quake_panel) : list string :=
  match p with
  | Ok (App.Quakes _ _ markers) => map App.color markers
  | _ => []
  end.

End Contract.

(* ===================================================================== *)
(** ** Sample inputs                                                      *)
(* ===================================================================== *)

Module Samples.

Import JS Server.
Local Open Scope string_scope.

(** An upstream that answers 200 with a truncated XML document. *)
Definition garbled : network := fun _ => Reply 200 (Text "<feed><entry>").

(** An XML parser that rejects its input. *)
Definition strict_xml : value -> result value :=
  fun _ => Throw (ParseError "Unclosed root tag").

Definition no_document : value -> result (list node) := fun _ => Ok [].

(** An upstream that answers 200 with an ATOM document, and a parser that
    reads it as [parsed]. *)
Definition atom_feed : network := fun _ => Reply 200 (Text "<feed>").

Definition xml_gives (parsed : value) : value -> result value :=
  fun _ => Ok parsed.

(** An entry with two links and a summary with a type attribute. *)
Definition advisory : value :=
  VObj [("id", VStr "urn:uuid:1");
        ("title", VStr "Tsunami Advisory");
        ("updated", VStr "2024-05-01T09:00:00Z");
        ("summary", VObj [("_", VStr "Magnitude 7.1, no threat");
                          ("$", VObj [("type", VStr "text")])]);
        ("link",
         VArr [VObj [("$", VObj [("rel", VStr "alternate");
                                 ("href", VStr "https://www.tsunami.gov/events/1")])];
               VObj [("$", VObj [("rel", VStr "related");
                                 ("href", VStr "https://www.tsunami.gov/events/1.xml")])]])].

(** [<summary type=html></summary>] under [explicitArray: false]: the
    attributes, and no text. *)
Definition bare_summary_entry : value :=
  VObj [("id", VStr "urn:uuid:7");
        ("title", VStr "Tsunami Statement");
        ("updated", VStr "2024-05-01T10:00:00Z");
        ("summary", VObj [("$", VObj [("type", VStr "html")])])].

Definition one_entry_feed (e : value) : value :=
  VObj [("feed", VObj [("title", VStr "Tsunami Information");
                       ("entry", e)])].

(** A page with a table of two eruptions and a navigation list. *)
Definition eruptions_page : list node :=
  [Element "html"
     [Element "body"
        [Element "ul"
           [Element "li" [TextNode "Current Eruptions overview"]];
         Element "table"
           [Element "tr" [Element "th" [TextNode "Volcano"]];
            Element "tr" [Element "td" [TextNode " Etna "];
                          Element "td" [TextNode "Ongoing"]];
            Element "tr" [Element "td" [TextNode "Kilauea"]]]]]].

(** A page without a table. *)
Definition list_page : list node :=
  [Element "html"
     [Element "body"
        [Element "ul"
           [Element "li" [TextNode "  Etna (Italy), continuing  "];
            Element "li" [TextNode "Home"];
            Element "li" [Element "a" [TextNode "Kilauea (United States)"]]]]]].

(** A page with neither rows nor list items. *)
Definition empty_page : list node :=
  [Element "html" [Element "body" [Element "p" [TextNode "Moved"]]]].

Definition html_page : network := fun _ => Reply 200 (Text "<html>").

Definition loads (doc : list node) : value -> result (list node) :=
  fun _ => Ok doc.

(** A feature whose magnitude is written [mag] in the feed. *)
Definition quake (mag : Q) (place : string) : value :=
  VObj [("type", VStr "Feature");
        ("properties", VObj [("mag", VNum (nearest_double mag));
                             ("place", VStr place);
                             ("time", VNum 1714550400000);
                             ("url", VStr "https://earthquake.usgs.gov/")]);
        ("geometry", VObj [("type", VStr "Point");
                           ("coordinates", VArr [VNum (-122); VNum 38;
                                                 VNum 10])])].

(** Three features with magnitudes 5.2, 2.1 and 6.8. *)
Definition three_quakes : value :=
  VObj [("ok", VBool true); ("source", VStr "usgs");
        ("data", VObj [("type", VStr "FeatureCollection");
                       ("features",
                        VArr [quake (52 # 10) "Alaska";
                              quake (21 # 10) "California";
                              quake (68 # 10) "Chile"])])].

Definition no_coercion : value -> result App.number :=
  fun _ => Ok App.NaN.

(** A map that takes a marker at numbers only. *)
Definition numeric_markers : value -> value -> result unit :=
  fun lat lon =>
    match lat, lon with
    | VNum _, VNum _ => Ok tt
    | _, _ => Throw (TypeError "Invalid LatLng object")
    end.

(** A feature without a magnitude between two that have one. *)
Definition unrated_quake : value :=
  VObj [("type", VStr "Feature");
        ("properties", VObj [("place", VStr "Nevada");
                             ("time", VNum 1714550400000);
                             ("url", VStr "https://earthquake.usgs.gov/")]);
        ("geometry", VObj [("type", VStr "Point");
                           ("coordinates", VArr [VNum (-117); VNum 39;
                                                 VNum 5])])].

Definition gapped_quakes : value :=
  VObj [("ok", VBool true); ("source", VStr "usgs");
        ("data", VObj [("type", VStr "FeatureCollection");
                       ("features",
                        VArr [quake 1 "Alaska";
                              unrated_quake;
                              quake 2 "Chile"])])].









End Samples.

(* ===================================================================== *)
(** ** app.js: the rest of [init]                                         *)
(* ===================================================================== *)

Module Dashboard.

Import JS Server App.
Local Open Scope string_scope.

(** *** The click handler of a list entry *)

(** A view of the map: [map.setView([lat, lon], zoom)]. *)
Record view : Type := {
  center_lat : value;
  center_lon : value;
  zoom : Z
}.

(** [L.map('map').setView([20, 0], 2)] *)
Definition initial_view : view :=
  {| center_lat := VNum 20; center_lon := VNum 0; zoom := 2 |}.

(** [li.onclick]:
    [const [lon, lat] = f.geometry.coordinates; map.setView([lat, lon], 6)],
    as the view it asks Leaflet for.  Array destructuring needs an
    iterable: an array or a string. *)
Definition on_click (li : list_item) : result view :=
  geometry <- get (target li) "geometry" ;;
  coordinates <- get geometry "coordinates" ;;
  match coordinates with
  | VArr xs =>
      Ok {| center_lat := nth 1 xs VUndef; center_lon := nth 0 xs VUndef;
            zoom := 6 |}
  | VStr s =>
      Ok {| center_lat := char_at s 1; center_lon := char_at s 0; zoom := 6 |}
  | _ => Throw (TypeError "f.geometry.coordinates is not iterable")
  end.

(** *** Tsunami and volcano blocks *)

(** The text of [#tsunami-msg]: the title of the first entry (clickable),
    or the placeholder. *)
Inductive tsunami_msg : Type :=
| TsunamiTitle (text : value)
| NoTsunami.

(** One entry of [#volcano-list]: the name, followed by a dash and the
    status when the status is truthy. *)
Record volcano_li : Type := {
  vname : value;
  vstatus : option value
}.

(** The list [#volcano-list]: the placeholder, or the entries followed by
    the link to the full report. *)
Inductive volcano_panel : Type :=
| VolcanoesUnavailable
| VolcanoList (items : list volcano_li).

(** What [init] has made of one region of the page: nothing yet, a block
    that threw before its end, or the block's rendering. *)
Inductive region (A : Type) : Type :=
| Untouched
| Interrupted (e : error)
| Rendered (a : A).

Arguments Untouched {A}.
Arguments Interrupted {A} e.
Arguments Rendered {A} a.

Record screen : Type := {
  eq_region : region quake_panel;
  tsunami_region : region tsunami_msg;
  volcano_region : region volcano_panel;
  flood_region : region flood_panel;
  emergency_button : bool
}.

(** [v.length].  A value read from JSON is never a function. *)
Definition length_of (v : value) : result value :=
  match v with
  | VArr xs => Ok (VNum (inject_Z (Z.of_nat (List.length xs))))
  | VStr s => Ok (VNum (inject_Z (Z.of_nat (String.length s))))
  | _ => get v "length"
  end.

Section Blocks.

Variable coerce : value -> result number.
Variable circleMarker : value -> value -> result unit.

(** The tsunami block of [init].  The [textContent] attribute converts what
    it is given to a string. *)
Definition render_tsunami (ts : value) : result tsunami_msg :=
  c <- and_then ts (get ts "ok") ;;
  c <- and_then c (get ts "data") ;;
  c <- and_then c (d <- get ts "data" ;;
                   n <- length_of d ;;
                   n <- ToNumber coerce n ;;
                   Ok (VBool (positive n))) ;;
  if truthy c then
    d <- get ts "data" ;;
    first <- index d 0 ;;
    title <- get first "title" ;;
    text <- ToPrimitive (or_else title (VStr "Latest tsunami message")) ;;
    Ok (TsunamiTitle text)
  else Ok NoTsunami.

(** The callback of [vol.data.slice(0,6).forEach].  The template literal
    converts the name, the concatenation converts a truthy status. *)
Definition volcano_line (v : value) : result volcano_li :=
  n <- get v "name" ;;
  name <- ToPrimitive n ;;
  status <- get v "status" ;;
  if truthy status then
    status <- ToPrimitive status ;;
    Ok {| vname := name; vstatus := Some status |}
  else Ok {| vname := name; vstatus := None |}.

(** The volcano block of [init].  [slice] exists on arrays and strings,
    [forEach] on arrays only. *)
Definition render_volcanoes (vol : value) : result volcano_panel :=
  c <- and_then vol (get vol "ok") ;;
  c <- and_then c (get vol "data") ;;
  if truthy c then
    d <- get vol "data" ;;
    match d with
    | VArr vs =>
        items <- mapM volcano_line (firstn 6 vs) ;;
        Ok (VolcanoList items)
    | VStr _ =>
        Throw (TypeError "vol.data.slice(...).forEach is not a function")
    | _ => Throw (TypeError "vol.data.slice is not a function")
    end
  else Ok VolcanoesUnavailable.

(** *** [init] *)

(** [init]: the four blocks in turn, each after its own [fetchJson], then
    the click handler of the emergency button.  There is no [try] in
    [init]: an exception of a block ends it. *)
Definition init (backend : string -> option served) : screen :=
  match render_quakes coerce circleMarker
          (fetchJson (backend "/api/earthquakes")) with
  | Throw e =>
      {| eq_region := Interrupted e; tsunami_region := Untouched;
         volcano_region := Untouched; flood_region := Untouched;
         emergency_button := false |}
  | Ok q =>
      match render_tsunami (fetchJson (backend "/api/tsunami")) with
      | Throw e =>
          {| eq_region := Rendered q; tsunami_region := Interrupted e;
             volcano_region := Untouched; flood_region := Untouched;
             emergency_button := false |}
      | Ok t =>
          match render_volcanoes (fetchJson (backend "/api/volcanoes")) with
          | Throw e =>
              {| eq_region := Rendered q; tsunami_region := Rendered t;
                 volcano_region := Interrupted e;
                 flood_region := Untouched;
                 emergency_button := false |}
          | Ok v =>
              match render_floods (fetchJson (backend "/api/floods")) with
              | Throw e =>
                  {| eq_region := Rendered q; tsunami_region := Rendered t;
                     volcano_region := Rendered v;
                     flood_region := Interrupted e;
                     emergency_button := false |}
              | Ok f =>
                  {| eq_region := Rendered q; tsunami_region := Rendered t;
                     volcano_region := Rendered v;
                     flood_region := Rendered f;
                     emergency_button := true |}
              end
          end
      end
  end.

End Blocks.

(** The feed routes of the Express application, by path. *)
Definition route_of_path (p : string) : option route :=
  if String.eqb p "/api/earthquakes" then Some Earthquakes
  else if String.eqb p "/api/tsunami" then Some Tsunami
  else if String.eqb p "/api/volcanoes" then Some Volcanoes
  else if String.eqb p "/api/floods" then Some Floods
  else None.

(** The page served by this backend: every feed path is answered by its
    handler. *)
Definition express (net : network) (parseString : value -> result value)
    (load : value -> result (list node)) (p : string) : option served :=
  option_map (handle net parseString load) (route_of_path p).

End Dashboard.

(* ===================================================================== *)
(** ** Further vocabulary                                                 *)
(* ===================================================================== *)

Module Shapes.

Import JS Server App Contract Dashboard.
Local Open Scope string_scope.

(** The first argument of [console.error] in the [catch] of a route. *)
Definition log_tag (rt : route) : string :=
  match rt with
  | Earthquakes => "earthquakes error"
  | Tsunami => "tsunami error"
  | Volcanoes => "volcanoes error"
  | Floods => "floods error"
  end.

(** The line [console.error(tag, err.message)] writes. *)
Definition log_line (rt : route) (err : error) : string :=
  log_tag rt ++ " " ++ message err.

(** The reply of a route whose [try] block threw [err]. *)
Definition failure_reply (rt : route) (err : error) : served :=
  {| console := [log_line rt err]; status := 500;
     body := Some (failure_envelope rt) |}.


(** An entry of the volcano list is a name and a status, both strings. *)
Definition is_eruption (e : value) : Prop :=
  exists name status, e = eruption name status.

(** A normalised tsunami entry: the object the entry mapping builds. *)
Definition is_entry (t : value) : Prop :=
  exists id title updated summary link,
    t = VObj [("id", id); ("title", title); ("updated", updated);
              ("summary", summary); ("link", link)].

(** The list entry the volcano block makes of a scraped entry: the name,
    and the status unless it is empty. *)
Definition line_of (e : value) (li : volcano_li) : Prop :=
  exists name status,
    e = eruption name status
    /\ vname li = VStr name
    /\ vstatus li = if String.eqb status EmptyString then None
                    else Some (VStr status).

(** A feature the comparator can read: [properties.mag] is a number or
    [null]. *)
Definition sortable (f : value) : bool :=
  match get f "properties" with
  | Ok props =>
      match get props "mag" with
      | Ok (VNum _) | Ok VNull => true
      | _ => false
      end
  | Throw _ => false
  end.

(** A feature a marker can be placed for: [geometry.coordinates] can be
    read and indexed. *)
Definition placeable (f : value) : bool :=
  match get f "geometry" with
  | Ok geometry =>
      match get geometry "coordinates" with
      | Ok coordinates => object_coercible coordinates
      | Throw _ => false
      end
  | Throw _ => false
  end.

(** The page when no feed could be shown. *)
Definition all_unavailable : screen :=
  {| eq_region := Rendered QuakesUnavailable;
     tsunami_region := Rendered NoTsunami;
     volcano_region := Rendered VolcanoesUnavailable;
     flood_region := Rendered FloodsUnavailable;
     emergency_button := true |}.

(** The page when the earthquake block threw. *)
Definition stopped_at_quakes (err : error) : screen :=
  {| eq_region := Interrupted err;
     tsunami_region := Untouched;
     volcano_region := Untouched;
     flood_region := Untouched;
     emergency_button := false |}.

(** Features of one magnitude. *)
Definition has_mag (q : Q) (f : value) : bool := Qeq_bool (mag_number f) q.

End Shapes.

(* ===================================================================== *)
(** ** Further sample inputs                                              *)
(* ===================================================================== *)

Module MoreSamples.

Import JS Server App Samples.
Local Open Scope string_scope.

(** A GeoJSON collection without features. *)
Definition empty_collection : json :=
  JObj [("type", JStr "FeatureCollection"); ("features", JArr [])].

(** A network on which only the USGS feed answers, and one on which every
    request gets that answer. *)
Definition usgs_only : network :=
  fun rq =>
    if String.eqb (url rq) (url earthquakes_request)
    then Reply 200 (Json empty_collection)
    else Unreachable "getaddrinfo ENOTFOUND".

Definition usgs_everywhere : network :=
  fun _ => Reply 200 (Json empty_collection).



(** An entry with two links of which the first has no attributes. *)
Definition bare_link_entry : value :=
  VObj [("id", VStr "urn:uuid:9");
        ("title", VStr "Tsunami Warning");
        ("link", VArr [VStr "see below";
                       VObj [("$", VObj [("href", VStr "https://www.tsunami.gov/events/9")])]])].

Definition two_entry_feed (e1 e2 : value) : value :=
  VObj [("feed", VObj [("entry", VArr [e1; e2])])].

(** A feature without geometry. *)
Definition unlocated_quake (mag : Q) (place : string) : value :=
  VObj [("type", VStr "Feature");
        ("properties", VObj [("mag", VNum (nearest_double mag));
                             ("place", VStr place);
                             ("time", VNum 1714550400000)]);
        ("geometry", VNull)].

(** A backend of which only the earthquake route answers, with one
    located and one unlocated feature. *)
Definition two_features : json :=
  JObj [("type", JStr "FeatureCollection");
        ("features",
         JArr [JObj [("properties", JObj [("mag", JNum (45 # 10))]);
                     ("geometry",
                      JObj [("coordinates", JArr [JNum 10; JNum 20])])];
               JObj [("properties", JObj [("mag", JNum (61 # 10))]);
                     ("geometry", JNull)]])].

Definition half_located : string -> option served :=
  fun p =>
    if String.eqb p "/api/earthquakes"
    then Some {| console := []; status := 200;
                 body := Some (JObj [("ok", JBool true);
                                     ("source", JStr "usgs");
                                     ("data", two_features)]) |}
    else None.

(** A network on which nothing answers. *)
Definition offline : network := fun _ => Unreachable "getaddrinfo ENOTFOUND".

(** A report whose URL is a string, as the ReliefWeb API sends it. *)
Definition string_url_report : value :=
  VObj [("fields", VObj [("title", VStr "Flash floods");
                         ("url", VStr "https://reliefweb.int/report/5")])].

(** A report whose title is an object that names a [toString] of its
    own. *)
Definition stringless_report : value :=
  VObj [("fields", VObj [("title", VObj [("toString", VStr "Flood")])])].

(** An entry whose title element has a [toString] child, as xml2js reads
    it. *)
Definition stringless_title_entry : value :=
  VObj [("id", VStr "urn:uuid:3");
        ("title", VObj [("toString", VStr "Tsunami Watch")]);
        ("updated", VStr "2024-05-01T11:00:00Z")].



End MoreSamples.

(* ===================================================================== *)
(** ** Properties of values                                               *)
(* ===================================================================== *)

Module JSFacts.

Import JS Contract.
Local Open Scope string_scope.

(** *** Rounding *)

(** A double is its own rounding; 5.2 and 0.7 are not doubles; the sum of
    4 and the double of 2.11 is rounded again, below the double of 6.11; a
    tie goes to the even significand. *)
Example nearest_double_samples :
  nearest_double (9 # 2) = (9 # 2)%Q
  /\ nearest_double (52 # 10) = (5854679515581645 # 1125899906842624)%Q
  /\ (nearest_double (7 # 10) < 7 # 10)%Q
  /\ nearest_double (4 + nearest_double (211 # 100))
     = (429953026925527 # 70368744177664)%Q
  /\ (nearest_double (4 + nearest_double (211 # 100))
      < nearest_double (611 # 100))%Q
  /\ nearest_double (9007199254740993 # 1) = (9007199254740992 # 1)%Q
  /\ nearest_double (9007199254740995 # 1) = (9007199254740996 # 1)%Q.
Proof. repeat split; vm_compute; reflexivity. Qed.

Unset Implicit Arguments.

(** Powers of two and the binary logarithm. *)
Lemma pow2_pos (e : Z) : 0 < pow2 e.
Proof. apply Qpower_0_lt. reflexivity. Qed.

Lemma pow2_plus (a b : Z) : pow2 (a + b) == pow2 a * pow2 b.
Proof. apply Qpower_plus. discriminate. Qed.

Lemma pow2_le (a b : Z) : (a <= b)%Z -> pow2 a <= pow2 b.
Proof. intros H. apply Qpower_le_compat_l; [exact H | discriminate]. Qed.

Lemma pow2_lt_inv (a b : Z) : pow2 a < pow2 b -> (a < b)%Z.
Proof.
  intros H. destruct (Z_lt_le_dec a b) as [Hlt|Hle]; [exact Hlt|].
  exfalso. apply (Qlt_not_le _ _ H). apply pow2_le. exact Hle.
Qed.

Lemma pow2_Z (e : Z) : (0 <= e)%Z -> pow2 e == inject_Z (2 ^ e).
Proof. intros H. unfold pow2. rewrite Zpower_Qpower by exact H. reflexivity. Qed.

Lemma floor_log2_spec (a : Q) :
  0 < a -> pow2 (floor_log2 a) <= a /\ a < pow2 (floor_log2 a + 1).
Proof.
  intros Ha. destruct a as [n d].
  assert (0 < n)%Z as Hn by (unfold Qlt in Ha; simpl in Ha; lia).
  unfold floor_log2. cbn [Qnum Qden].
  destruct (Z.log2_spec n Hn) as [Hn1 Hn2].
  destruct (Z.log2_spec (Zpos d) (Pos2Z.is_pos d)) as [Hd1 Hd2].
  pose proof (Z.log2_nonneg n) as Ln. pose proof (Z.log2_nonneg (Zpos d)) as Ld.
  set (ln := Z.log2 n) in *. set (ld := Z.log2 (Zpos d)) in *.
  assert (inject_Z n < pow2 (ln + 1)) as Qn2.
  { rewrite pow2_Z by lia. unfold Qlt; cbn [Qnum Qden inject_Z]; rewrite !Z.mul_1_r. replace (ln + 1)%Z with (Z.succ ln) by lia. exact Hn2. }
  assert (pow2 ln <= inject_Z n) as Qn1.
  { rewrite pow2_Z by lia. unfold Qle; cbn [Qnum Qden inject_Z]; rewrite !Z.mul_1_r. exact Hn1. }
  assert (inject_Z (Zpos d) < pow2 (ld + 1)) as Qd2.
  { rewrite pow2_Z by lia. unfold Qlt; cbn [Qnum Qden inject_Z]; rewrite !Z.mul_1_r. replace (ld + 1)%Z with (Z.succ ld) by lia. exact Hd2. }
  assert (pow2 ld <= inject_Z (Zpos d)) as Qd1.
  { rewrite pow2_Z by lia. unfold Qle; cbn [Qnum Qden inject_Z]; rewrite !Z.mul_1_r. exact Hd1. }
  assert (0 < inject_Z (Zpos d)) as Dpos by reflexivity.
  destruct (Qle_bool (pow2 (ln - ld)) (n # d)) eqn:E.
  - apply Qle_bool_iff in E. split; [exact E|].
    rewrite (Qmake_Qdiv n d). apply Qlt_shift_div_r; [exact Dpos|].
    eapply Qlt_le_trans; [exact Qn2|].
    replace (ln + 1)%Z with ((ln - ld + 1) + ld)%Z by lia.
    rewrite pow2_plus. apply Qmult_le_l; [apply pow2_pos | exact Qd1].
  - assert (n # d < pow2 (ln - ld)) as E'.
    { apply Qnot_le_lt. intros H. apply Qle_bool_iff in H. congruence. }
    split.
    + rewrite (Qmake_Qdiv n d). apply Qle_shift_div_l; [exact Dpos|].
      eapply Qle_trans; [|exact Qn1].
      replace ln with ((ln - ld - 1) + (ld + 1))%Z at 2 by lia.
      rewrite pow2_plus. apply Qmult_le_l; [apply pow2_pos|].
      apply Qlt_le_weak. exact Qd2.
    + replace (ln - ld - 1 + 1)%Z with (ln - ld)%Z by lia. exact E'.
Qed.

Lemma floor_log2_lower (a : Q) (j : Z) :
  0 < a -> pow2 j <= a -> (j <= floor_log2 a)%Z.
Proof.
  intros Ha Hj. destruct (floor_log2_spec a Ha) as [_ H].
  assert (pow2 j < pow2 (floor_log2 a + 1)) as Hlt
    by (eapply Qle_lt_trans; eassumption).
  apply pow2_lt_inv in Hlt. lia.
Qed.

Lemma floor_log2_mono (x y : Q) :
  0 < x -> x <= y -> (floor_log2 x <= floor_log2 y)%Z.
Proof.
  intros Hx Hxy. apply floor_log2_lower.
  - eapply Qlt_le_trans; eassumption.
  - eapply Qle_trans; [|exact Hxy]. apply (floor_log2_spec x Hx).
Qed.

Lemma rhe_floor (s : Q) :
  (Qfloor s <= round_half_even s <= Qfloor s + 1)%Z.
Proof.
  destruct s as [n d]. unfold round_half_even, Qfloor. cbn [Qnum Qden].
  destruct (2 * (n mod Zpos d) ?= Zpos d)%Z; [destruct (Z.even (n / Zpos d))| |]; lia.
Qed.

Lemma rhe_lower (s : Q) (n : Z) : inject_Z n <= s -> (n <= round_half_even s)%Z.
Proof.
  intros H. apply Qfloor_resp_le in H. rewrite Qfloor_Z in H.
  pose proof (rhe_floor s). lia.
Qed.

Lemma rhe_upper (s : Q) (n : Z) : s <= inject_Z n -> (round_half_even s <= n)%Z.
Proof.
  destruct s as [N D]. unfold Qle. cbn [Qnum Qden inject_Z]. intros H.
  unfold round_half_even. cbn [Qnum Qden].
  pose proof (Z.div_mod N (Zpos D) ltac:(lia)) as E.
  pose proof (Z.mod_pos_bound N (Zpos D) ltac:(lia)) as B.
  assert (N / Zpos D <= n)%Z as Hf by (apply Z.div_le_upper_bound; lia).
  destruct (Z.compare_spec (2 * (N mod Zpos D)) (Zpos D)) as [C|C|C].
  - destruct (Z.even (N / Zpos D)); [lia|]. nia.
  - lia.
  - nia.
Qed.

Lemma rhe_mono (s t : Q) : s <= t -> (round_half_even s <= round_half_even t)%Z.
Proof.
  intros H. pose proof (Qfloor_resp_le _ _ H) as Hf.
  pose proof (rhe_floor s) as Bs. pose proof (rhe_floor t) as Bt.
  destruct (Z.eq_dec (Qfloor s) (Qfloor t)) as [Ef|Nf]; [|lia].
  destruct s as [N D], t as [N' D'].
  unfold Qle in H. unfold Qfloor in *. cbn [Qnum Qden] in *.
  unfold round_half_even. cbn [Qnum Qden].
  pose proof (Z.div_mod N (Zpos D) ltac:(lia)) as E.
  pose proof (Z.mod_pos_bound N (Zpos D) ltac:(lia)) as B.
  pose proof (Z.div_mod N' (Zpos D') ltac:(lia)) as E'.
  pose proof (Z.mod_pos_bound N' (Zpos D') ltac:(lia)) as B'.
  rewrite <- Ef.
  set (f := (N / Zpos D)%Z) in *. set (r := (N mod Zpos D)%Z) in *.
  set (r' := (N' mod Zpos D')%Z) in *.
  assert (r * Zpos D' <= r' * Zpos D)%Z as Hr.
  { rewrite Ef in E. fold f in E. subst f. nia. }
  destruct (Z.compare_spec (2 * r) (Zpos D)) as [C|C|C];
    destruct (Z.compare_spec (2 * r') (Zpos D')) as [C'|C'|C'];
    destruct (Z.even f); try lia; exfalso; nia.
Qed.

(** Rounding from 1 up. *)
Lemma nearest_double_normal (q : Q) :
  1 <= q ->
  nearest_double q
  = if Qle_bool (pow2 1024) (Qred (on_grid q)) then q else Qred (on_grid q).
Proof.
  intros H1.
  assert (0 < q) as Hpos by (eapply Qlt_le_trans; [|exact H1]; reflexivity).
  assert (0 <= floor_log2 q)%Z as Hk
    by (apply floor_log2_lower; [exact Hpos | exact H1]).
  unfold nearest_double, on_grid.
  assert (Qeq_bool q 0 = false) as ->.
  { destruct (Qeq_bool q 0) eqn:E; [|reflexivity].
    apply Qeq_bool_iff in E. rewrite E in Hpos. discriminate Hpos. }
  assert (Qabs q = q) as ->.
  { destruct q as [n d]. unfold Qlt in Hpos. cbn [Qnum Qden] in Hpos.
    unfold Qabs. rewrite Z.abs_eq by lia. reflexivity. }
  rewrite Z.max_l by lia.
  assert (Qle_bool 0 q = true) as ->
    by (apply Qle_bool_iff; apply Qlt_le_weak; exact Hpos).
  reflexivity.
Qed.

Lemma inject_Z_pow2 (e : Z) : (0 <= e)%Z -> inject_Z (2 ^ e) == pow2 e.
Proof. intros H. symmetry. apply pow2_Z. exact H. Qed.

Lemma scaled_bounds (q : Q) :
  0 < q ->
  inject_Z (2 ^ 52) <= q * pow2 (- (floor_log2 q - 52))
  /\ q * pow2 (- (floor_log2 q - 52)) <= inject_Z (2 ^ 53).
Proof.
  intros Hpos. destruct (floor_log2_spec q Hpos) as [Hlo Hhi].
  set (k := floor_log2 q) in *.
  pose proof (pow2_pos (- (k - 52))) as Hp.
  split.
  - rewrite inject_Z_pow2 by lia.
    replace 52%Z with (k + - (k - 52))%Z at 1 by lia.
    rewrite pow2_plus. apply Qmult_le_compat_r; [exact Hlo|].
    apply Qlt_le_weak. exact Hp.
  - rewrite inject_Z_pow2 by lia.
    replace 53%Z with ((k + 1) + - (k - 52))%Z at 1 by lia.
    rewrite pow2_plus. apply Qmult_le_compat_r; [|apply Qlt_le_weak; exact Hp].
    apply Qlt_le_weak. exact Hhi.
Qed.

Lemma on_grid_bounds (q : Q) :
  0 < q ->
  pow2 (floor_log2 q) <= on_grid q /\ on_grid q <= pow2 (floor_log2 q + 1).
Proof.
  intros Hpos. destruct (scaled_bounds q Hpos) as [Hlo Hhi].
  unfold on_grid. set (k := floor_log2 q) in *.
  set (s := q * pow2 (- (k - 52))) in *.
  pose proof (rhe_lower s _ Hlo) as Mlo. pose proof (rhe_upper s _ Hhi) as Mhi.
  pose proof (pow2_pos (k - 52)) as Hp.
  split.
  - replace k with (52 + (k - 52))%Z at 1 by lia.
    rewrite pow2_plus. apply Qmult_le_compat_r; [|apply Qlt_le_weak; exact Hp].
    rewrite <- inject_Z_pow2 by lia.
    unfold Qle; cbn [Qnum Qden inject_Z]; rewrite !Z.mul_1_r. exact Mlo.
  - replace (k + 1)%Z with (53 + (k - 52))%Z by lia.
    rewrite pow2_plus. apply Qmult_le_compat_r; [|apply Qlt_le_weak; exact Hp].
    rewrite <- inject_Z_pow2 by lia.
    unfold Qle; cbn [Qnum Qden inject_Z]; rewrite !Z.mul_1_r. exact Mhi.
Qed.

Lemma on_grid_mono (x y : Q) : 0 < x -> x <= y -> on_grid x <= on_grid y.
Proof.
  intros Hx Hxy.
  assert (0 < y) as Hy by (eapply Qlt_le_trans; eassumption).
  pose proof (floor_log2_mono x y Hx Hxy) as Hk.
  destruct (Z.eq_dec (floor_log2 x) (floor_log2 y)) as [E|N].
  - unfold on_grid. rewrite E.
    apply Qmult_le_compat_r; [|apply Qlt_le_weak; apply pow2_pos].
    unfold Qle; cbn [Qnum Qden inject_Z]; rewrite !Z.mul_1_r.
    apply rhe_mono. apply Qmult_le_compat_r; [exact Hxy|].
    apply Qlt_le_weak. apply pow2_pos.
  - eapply Qle_trans; [apply (on_grid_bounds x Hx)|].
    eapply Qle_trans; [|apply (on_grid_bounds y Hy)].
    apply pow2_le. lia.
Qed.

(** A grid point reached from below lies below everything above. *)
Lemma on_grid_below (x y : Q) :
  0 < x -> x <= y -> on_grid x < on_grid y -> on_grid x <= y.
Proof.
  intros Hx Hxy Hlt.
  assert (0 < y) as Hy by (eapply Qlt_le_trans; eassumption).
  pose proof (floor_log2_mono x y Hx Hxy) as Hk.
  destruct (Z.eq_dec (floor_log2 x) (floor_log2 y)) as [E|N].
  - apply Qnot_lt_le. intros Hyx. apply (Qlt_not_le _ _ Hlt).
    unfold on_grid in *. rewrite E in *.
    set (e := (floor_log2 y - 52)%Z) in *.
    apply Qmult_le_compat_r; [|apply Qlt_le_weak; apply pow2_pos].
    unfold Qle; cbn [Qnum Qden inject_Z]; rewrite !Z.mul_1_r.
    apply rhe_upper.
    assert (y * pow2 (- e)
            <= inject_Z (round_half_even (x * pow2 (- e))) * pow2 e * pow2 (- e))
      as H.
    { apply Qmult_le_compat_r; [apply Qlt_le_weak; exact Hyx|].
      apply Qlt_le_weak. apply pow2_pos. }
    rewrite <- Qmult_assoc, <- pow2_plus in H.
    replace (e + - e)%Z with 0%Z in H by lia.
    change (pow2 0) with 1 in H. rewrite Qmult_1_r in H. exact H.
  - eapply Qle_trans; [apply (on_grid_bounds x Hx)|].
    eapply Qle_trans; [|apply (floor_log2_spec y Hy)].
    apply pow2_le. lia.
Qed.

(** From 1 up, rounding to the nearest double is monotone. *)
Lemma nearest_double_monotone (x y : Q) :
  1 <= x -> x <= y -> nearest_double x <= nearest_double y.
Proof.
  intros H1 Hxy.
  assert (1 <= y) as H1y by (eapply Qle_trans; eassumption).
  assert (0 < x) as Hx by (eapply Qlt_le_trans; [|exact H1]; reflexivity).
  rewrite (nearest_double_normal x H1), (nearest_double_normal y H1y).
  pose proof (on_grid_mono x y Hx Hxy) as Hg.
  destruct (Qle_bool (pow2 1024) (Qred (on_grid x))) eqn:Ex;
    destruct (Qle_bool (pow2 1024) (Qred (on_grid y))) eqn:Ey.
  - exact Hxy.
  - exfalso. apply Qle_bool_iff in Ex. rewrite Qred_correct in Ex.
    assert (Qle_bool (pow2 1024) (Qred (on_grid y)) = true) as E.
    { apply Qle_bool_iff. rewrite Qred_correct.
      eapply Qle_trans; eassumption. }
    congruence.
  - rewrite Qred_correct. apply on_grid_below; [exact Hx | exact Hxy|].
    apply Qle_bool_iff in Ey. rewrite Qred_correct in Ey.
    eapply Qlt_le_trans; [|exact Ey].
    apply Qnot_le_lt. intros H. 
    assert (Qle_bool (pow2 1024) (Qred (on_grid x)) = true) as E.
    { apply Qle_bool_iff. rewrite Qred_correct. exact H. }
    congruence.
  - rewrite !Qred_correct. exact Hg.
Qed.

Set Implicit Arguments.

(** *** Serialisation *)


Lemma lookup_map (A B : Type) (h : A -> B) (k : string)
    (ps : list (string * A)) :
  lookup k (map (fun m : string * A => (fst m, h (snd m))) ps)
  = option_map h (lookup k ps).
Proof.
  induction ps as [|[k' x] ps IH]; simpl; [reflexivity|].
  destruct (String.eqb k k'); [reflexivity | exact IH].
Qed.






Lemma replace_map (A B : Type) (h : A -> B) (k : string) (x : A)
    (ps : list (string * A)) :
  replace k (h x) (map (fun m : string * A => (fst m, h (snd m))) ps)
  = map (fun m : string * A => (fst m, h (snd m))) (replace k x ps).
Proof.
  induction ps as [|[k' y] ps IH]; simpl; [reflexivity|].
  destruct (String.eqb k k'); simpl; [reflexivity|].
  rewrite IH. reflexivity.
Qed.

Lemma create_map (A B : Type) (h : A -> B) (k : string) (x : A)
    (ps : list (string * A)) :
  create k (h x) (map (fun m : string * A => (fst m, h (snd m))) ps)
  = map (fun m : string * A => (fst m, h (snd m))) (create k x ps).
Proof.
  induction ps as [|[k' y] ps IH]; simpl; [reflexivity|].
  destruct (listed_before k k'); simpl; [reflexivity|].
  rewrite IH. reflexivity.
Qed.

Lemma assign_map (A B : Type) (h : A -> B) (k : string) (x : A)
    (ps : list (string * A)) :
  assign k (h x) (map (fun m : string * A => (fst m, h (snd m))) ps)
  = map (fun m : string * A => (fst m, h (snd m))) (assign k x ps).
Proof.
  unfold assign, has_key. rewrite lookup_map.
  destruct (lookup k ps); simpl; [apply replace_map | apply create_map].
Qed.

Lemma fold_assign_map (A B : Type) (h : A -> B) (ms acc : list (string * A)) :
  fold_left (fun acc m => assign (fst m) (snd m) acc)
    (map (fun m : string * A => (fst m, h (snd m))) ms)
    (map (fun m : string * A => (fst m, h (snd m))) acc)
  = map (fun m : string * A => (fst m, h (snd m)))
      (fold_left (fun acc m => assign (fst m) (snd m) acc) ms acc).
Proof.
  revert acc. induction ms as [|[k x] ms IH]; intros acc; simpl;
    [reflexivity|].
  rewrite assign_map. apply IH.
Qed.

(** Building the object commutes with a change of the members' values. *)
Lemma assign_all_map (A B : Type) (h : A -> B) (ms : list (string * A)) :
  assign_all (map (fun m : string * A => let (k, x) := m in (k, h x)) ms)
  = map (fun m : string * A => (fst m, h (snd m))) (assign_all ms).
Proof.
  unfold assign_all.
  rewrite (map_ext (fun m : string * A => let (k, x) := m in (k, h x))
                   (fun m : string * A => (fst m, h (snd m))))
    by (intros [k x]; reflexivity).
  apply (fold_assign_map h ms []).
Qed.

Lemma Forall_replace (A : Type) (P : string * A -> Prop) (k : string) (x : A)
    (ps : list (string * A)) :
  (forall k', P (k', x)) -> Forall P ps -> Forall P (replace k x ps).
Proof.
  intros Hx H. induction H as [|[k' y] ps Hy Hps IH]; simpl; [constructor|].
  destruct (String.eqb k k'); constructor; auto.
Qed.

Lemma Forall_create (A : Type) (P : string * A -> Prop) (k : string) (x : A)
    (ps : list (string * A)) :
  (forall k', P (k', x)) -> Forall P ps -> Forall P (create k x ps).
Proof.
  intros Hx H. induction H as [|[k' y] ps Hy Hps IH]; simpl.
  - constructor; [apply Hx | constructor].
  - destruct (listed_before k k'); repeat constructor; auto.
Qed.

Lemma Forall_assign_all (A : Type) (P : A -> Prop) (ms : list (string * A)) :
  Forall (fun m => P (snd m)) ms -> Forall (fun m => P (snd m)) (assign_all ms).
Proof.
  unfold assign_all.
  assert (forall acc : list (string * A),
            Forall (fun m => P (snd m)) ms ->
            Forall (fun m => P (snd m)) acc ->
            Forall (fun m => P (snd m))
              (fold_left (fun acc m => assign (fst m) (snd m) acc) ms acc))
    as Hgen.
  { induction ms as [|[k x] ms IH]; intros acc Hms Hacc; simpl;
      [exact Hacc|].
    inversion Hms as [|m ms' Hx Hms']; subst.
    apply IH; [exact Hms'|].
    unfold assign. simpl.
    destruct (has_key k acc);
      [apply Forall_replace | apply Forall_create]; auto. }
  intros H. apply Hgen; [exact H | constructor].
Qed.

(** What is served of a parsed document is the document as it is written
    anew. *)
Lemma stringify_of_json (doc : json) :
  stringify (of_json doc) = Some (reserialised doc).
Proof.
  induction doc using json_nested_ind; simpl; try reflexivity.
  - f_equal. f_equal.
    induction H as [|x js Hx _ IH]; simpl; [reflexivity|].
    rewrite Hx, IH. reflexivity.
  - f_equal. f_equal.
    rewrite !assign_all_map.
    pose proof (Forall_assign_all
                  (fun x => stringify (of_json x) = Some (reserialised x)) H)
      as H'.
    induction H' as [|[k x] ms' Hx _ IH]; simpl in *; [reflexivity|].
    rewrite Hx, IH. reflexivity.
Qed.












(** *** Property access *)

Lemma get_ok (v : value) (k : string) :
  object_coercible v = true -> exists x, get v k = Ok x.
Proof.
  destruct v; simpl; intros H; try discriminate; eexists; reflexivity.
Qed.

Lemma get_ok_inv (v : value) (k : string) (x : value) :
  get v k = Ok x -> object_coercible v = true.
Proof. destruct v; simpl; intros H; try discriminate; reflexivity. Qed.

Lemma truthy_coercible (v : value) :
  truthy v = true -> object_coercible v = true.
Proof. destruct v; simpl; intros H; try discriminate; reflexivity. Qed.

Lemma get_object (v : value) (k : string) (ps : list (string * value)) :
  get v k = Ok (VObj ps) -> truthy v = true.
Proof.
  destruct v; simpl; intros H; try discriminate; try reflexivity.
  destruct (String.eqb k "link"); discriminate.
Qed.

Lemma index_ok (v : value) (i : nat) :
  object_coercible v = true -> exists x, index v i = Ok x.
Proof.
  destruct v; simpl; intros H; try discriminate; eexists; reflexivity.
Qed.

(** *** Exceptions *)

Lemma bind_ok (A B : Type) (m : result A) (k : A -> result B) (b : B) :
  bind m k = Ok b -> exists a, m = Ok a /\ k a = Ok b.
Proof.
  destruct m as [a|e]; simpl; intros H; [|discriminate].
  exists a. split; [reflexivity | exact H].
Qed.

Ltac bind_inv H :=
  let a := fresh "x" in
  let Ha := fresh "Hx" in
  apply bind_ok in H; destruct H as (a & Ha & H).

End JSFacts.

(* ===================================================================== *)
(** ** Properties of the feed routes                                      *)
(* ===================================================================== *)

Module ServerFacts.

Import JS Server Contract Samples JSFacts.
Local Open Scope string_scope.

(** *** Serialisation *)

Lemma stringify_data (c : content) :
  exists d, stringify (transformResponse c) = Some d.
Proof.
  destruct c as [doc|raw]; simpl.
  - exists (reserialised doc). apply stringify_of_json.
  - exists (JStr raw). reflexivity.
Qed.

(** *** The two shapes of a reply *)

Ltac reply_shape :=
  first [ left; split; reflexivity
        | right; split; [reflexivity | eexists; reflexivity] ].

Lemma handle_shape (net : network) (parseString : value -> result value)
    (load : value -> result (list node)) (rt : route) :
  failed rt (handle net parseString load rt)
  \/ succeeded rt (handle net parseString load rt).
Proof.
  unfold failed, succeeded.
  destruct rt; simpl; unfold earthquakes, tsunami, volcanoes, floods, axios_get;
    simpl.
  - destruct (net earthquakes_request) as [why| |st c]; simpl; try reply_shape.
    destruct ((200 <=? st)%Z && (st <? 300)%Z); simpl; try reply_shape.
    destruct (stringify_data c) as [d Hd]. right. split; [reflexivity|].
    exists d. unfold res_json; simpl. rewrite Hd. reflexivity.
  - destruct (net tsunami_request) as [why| |st c]; simpl; try reply_shape.
    destruct ((200 <=? st)%Z && (st <? 300)%Z); simpl; try reply_shape.
    destruct (parseString (transformResponse c)) as [parsed|e]; simpl;
      try reply_shape.
    destruct (entries_of parsed) as [entries|e]; simpl; try reply_shape.
    destruct (mapM normalize_entry entries) as [out|e]; simpl; reply_shape.
  - destruct (net volcanoes_request) as [why| |st c]; simpl; try reply_shape.
    destruct ((200 <=? st)%Z && (st <? 300)%Z); simpl; try reply_shape.
    destruct (load (transformResponse c)) as [doc|e]; simpl; reply_shape.
  - destruct (net floods_request) as [why| |st c]; simpl; try reply_shape.
    destruct ((200 <=? st)%Z && (st <? 300)%Z); simpl; try reply_shape.
    destruct (stringify_data c) as [d Hd]. right. split; [reflexivity|].
    exists d. unfold res_json; simpl. rewrite Hd. reflexivity.
Qed.

(** C1.  Whatever the upstream does, the envelope a feed route returns is
    a JSON object with a boolean [ok]; when [ok] is true it has [source]
    and [data] and no [error], when [ok] is false it has [error] and no
    [data]. *)
Theorem envelope_invariant (net : network)
    (parseString : value -> result value)
    (load : value -> result (list node)) (rt : route) :
  exists ms ok,
    body (handle net parseString load rt) = Some (JObj ms)
    /\ lookup "ok" ms = Some (JBool ok)
    /\ if ok
       then has_key "source" ms = true /\ has_key "data" ms = true
            /\ has_key "error" ms = false
       else has_key "error" ms = true /\ has_key "data" ms = false.
Proof.
  destruct (handle_shape net parseString load rt) as [[_ Hb]|[_ [d Hb]]];
    rewrite Hb.
  - eexists; exists false. repeat split; reflexivity.
  - eexists; exists true. repeat split; reflexivity.
Qed.

(** *** Failures *)

Lemma axios_resolves (net : network) (rq : request) (st : Z) (c : content) :
  net rq = Reply st c -> is_2xx st = true ->
  axios_get net rq = Ok {| data := transformResponse c; http_status := st |}.
Proof.
  unfold axios_get, is_2xx. intros -> ->. reflexivity.
Qed.

(** C2, as the code has it.  On every route a failure the handler observes
    (the HTTP client rejecting for a network failure, a timeout or a status
    that is not 2xx; on the tsunami and volcano routes also the handler's
    own XML or HTML parsing step throwing) gives status 500 and the route's
    one error envelope, whatever the cause, and every call ends in a reply.
    On the earthquake and flood routes a 2xx body that is not JSON is no
    failure: it is passed through as a string. *)
Theorem observed_failures_collapse (net : network)
    (parseString : value -> result value)
    (load : value -> result (list node)) (rt : route) :
  (failed rt (handle net parseString load rt)
   \/ succeeded rt (handle net parseString load rt))
  /\ (raised rt parseString load (net (request_of rt)) = true ->
      failed rt (handle net parseString load rt))
  /\ (forall st raw,
        rt = Earthquakes \/ rt = Floods ->
        net (request_of rt) = Reply st (Text raw) -> is_2xx st = true ->
        status (handle net parseString load rt) = 200%Z
        /\ body (handle net parseString load rt)
           = Some (success_envelope rt (JStr raw))).
Proof.
  split; [apply handle_shape|]. split.
  - unfold raised, failed.
    destruct rt; simpl; unfold earthquakes, tsunami, volcanoes, floods;
      unfold axios_get, is_2xx;
      match goal with |- context [net ?rq] => destruct (net rq) as [why| |st c] end;
      simpl; intros H; try (split; reflexivity);
      destruct ((200 <=? st)%Z && (st <? 300)%Z); simpl in *;
      try (split; reflexivity); try discriminate.
    + destruct (parseString (transformResponse c)); simpl in *;
        [discriminate | split; reflexivity].
    + destruct (load (transformResponse c)); simpl in *;
        [discriminate | split; reflexivity].
  - intros st raw [-> | ->] Hnet H2xx; simpl in *;
      unfold earthquakes, floods;
      rewrite (axios_resolves _ _ Hnet H2xx); simpl; split; reflexivity.
Qed.

Lemma observed_failures_collapse_witness :
  raised Tsunami strict_xml no_document (garbled (request_of Tsunami)) = true
  /\ failed Tsunami (handle garbled strict_xml no_document Tsunami).
Proof.
  split; [reflexivity|].
  apply (proj1 (proj2 (observed_failures_collapse garbled strict_xml
                         no_document Tsunami))).
  reflexivity.
Defined.

(** C2, as the specification words it, fails on the earthquake route: a
    2xx reply whose body is not JSON is one of the listed failure modes,
    and the route answers 200 with a success envelope. *)
Lemma unparsable_body_is_served :
  listed_failure Earthquakes strict_xml no_document
    (garbled (request_of Earthquakes)) = true
  /\ status (handle garbled strict_xml no_document Earthquakes) = 200%Z
  /\ body (handle garbled strict_xml no_document Earthquakes)
     = Some (JObj [("ok", JBool true); ("source", JStr "usgs");
                   ("data", JStr "<feed><entry>")])
  /\ ~ failed Earthquakes (handle garbled strict_xml no_document Earthquakes).
Proof.
  repeat split; try reflexivity.
  intros [H _]. discriminate H.
Qed.

(** *** The tsunami entry mapping *)

Lemma summary_of_total (e : value) :
  object_coercible e = true -> exists s, summary_of e = Ok s.
Proof.
  intros He. destruct (get_ok e "summary" He) as [s Hs].
  unfold summary_of. rewrite Hs; simpl. unfold and_then.
  destruct (truthy s) eqn:Ts; simpl.
  - destruct (get_ok s "_" (truthy_coercible s Ts)) as [x Hx].
    rewrite Hx; simpl.
    destruct (truthy x); simpl; eexists; reflexivity.
  - rewrite Ts. eexists; reflexivity.
Qed.

Lemma link_of_total (e : value) :
  normalizable e = true -> exists l, link_of e = Ok l.
Proof.
  unfold normalizable, link_of.
  destruct (get e "link") as [l|err] eqn:Hl; [|discriminate].
  cbn [bind]. intros Hr. destruct (isArray l) eqn:Al.
  - destruct l as [| | | | | items | |]; try discriminate.
    destruct items as [|first rest]; [discriminate|]. cbn in Hr |- *.
    destruct (get first "$") as [attrs|] eqn:Ha; [|discriminate]. cbn [bind].
    destruct (get_ok attrs "href" Hr) as [h Hh]. rewrite Hh.
    eexists; reflexivity.
  - unfold and_then. destruct (truthy l) eqn:Tl; cbn [bind].
    + destruct (get_ok l "$" (truthy_coercible l Tl)) as [a Ha].
      rewrite Ha. cbn [bind]. destruct (truthy a) eqn:Ta; cbn [bind].
      * destruct (get_ok a "href" (truthy_coercible a Ta)) as [h Hh].
        rewrite Hh. cbn [bind]. eexists; reflexivity.
      * eexists; reflexivity.
    + rewrite Tl. cbn [bind]. eexists; reflexivity.
Qed.

Lemma normalizable_coercible (e : value) :
  normalizable e = true -> object_coercible e = true.
Proof.
  unfold normalizable. destruct (get e "link") eqn:Hl; [|discriminate].
  intros _. eapply get_ok_inv; eassumption.
Qed.

(** The mapping of an entry never throws unless its link is a sequence
    whose first element has no attributes. *)
Lemma normalize_entry_total (e : value) :
  normalizable e = true ->
  exists id title updated summary link,
    get e "id" = Ok id /\ get e "title" = Ok title
    /\ get e "updated" = Ok updated
    /\ summary_of e = Ok summary /\ link_of e = Ok link
    /\ normalize_entry e
       = Ok (VObj [("id", id); ("title", title); ("updated", updated);
                   ("summary", summary); ("link", link)]).
Proof.
  intros Hn. pose proof (normalizable_coercible e Hn) as He.
  destruct (get_ok e "id" He) as [id Hid].
  destruct (get_ok e "title" He) as [title Ht].
  destruct (get_ok e "updated" He) as [updated Hu].
  destruct (summary_of_total e He) as [summary Hs].
  destruct (link_of_total e Hn) as [link Hl].
  exists id, title, updated, summary, link.
  unfold normalize_entry. rewrite Hid, Ht, Hu, Hs, Hl. simpl.
  repeat split; reflexivity.
Qed.


(** The reply of the tsunami route once the feed is fetched and parsed. *)
Lemma tsunami_reply (net : network) (parseString : value -> result value)
    (parsed : value) (entries out : list value) :
  tsunami_parsed net parseString parsed ->
  entries_of parsed = Ok entries ->
  mapM normalize_entry entries = Ok out ->
  tsunami net parseString = tsunami_lists out.
Proof.
  intros (st & c & Hnet & H2xx & Hp) He Hm.
  unfold tsunami. rewrite (axios_resolves _ _ Hnet H2xx). simpl.
  rewrite Hp. simpl. rewrite He. simpl. rewrite Hm. reflexivity.
Qed.

Lemma entries_of_feed (parsed feed entry : value) :
  get parsed "feed" = Ok feed -> truthy feed = true ->
  get feed "entry" = Ok entry ->
  entries_of parsed
  = Ok (if truthy entry
        then match entry with VArr es => es | _ => [entry] end
        else []).
Proof.
  intros Hf Tf He. unfold entries_of, and_then.
  rewrite Hf. cbn [bind]. rewrite Tf, He. cbn [bind].
  destruct (truthy entry); [|reflexivity].
  cbn [bind]. destruct entry; reflexivity.
Qed.


Lemma tsunami_lists_body (out : list value) :
  status (tsunami_lists out) = 200%Z
  /\ body (tsunami_lists out)
     = Some (success_envelope Tsunami (JArr (map item_json out))).
Proof. split; reflexivity. Qed.


Lemma link_of_sequence (e first : value) (rest : list value)
    (attrs : list (string * value)) (h : value) :
  get e "link" = Ok (VArr (first :: rest)) ->
  get first "$" = Ok (VObj attrs) ->
  lookup "href" attrs = Some h ->
  link_of e = Ok h.
Proof.
  intros Hl Ha Hh. unfold link_of. rewrite Hl. cbn [bind isArray index nth].
  rewrite Ha. cbn [bind get]. rewrite Hh. reflexivity.
Qed.

Lemma link_of_single (e l : value) (attrs : list (string * value))
    (h : string) :
  get e "link" = Ok l -> isArray l = false ->
  get l "$" = Ok (VObj attrs) ->
  lookup "href" attrs = Some (VStr h) ->
  link_of e = Ok (VStr h).
Proof.
  intros Hl Al Ha Hh. unfold link_of, and_then. rewrite Hl. cbn [bind].
  rewrite Al, (get_object _ _ Ha), Ha. cbn [bind truthy get].
  rewrite Hh. cbn [bind]. unfold or_else. cbn [truthy].
  destruct (String.eqb h EmptyString) eqn:E; cbn [negb]; [|reflexivity].
  apply String.eqb_eq in E. subst h. reflexivity.
Qed.

Lemma normalized_link (e link : value) :
  normalizable e = true -> link_of e = Ok link ->
  exists t, normalize_entry e = Ok t /\ get t "link" = Ok link.
Proof.
  intros Hn Hl.
  destruct (normalize_entry_total e Hn)
    as (id & title & updated & summary & link' & _ & _ & _ & _ & Hl' & Ht).
  rewrite Hl in Hl'. injection Hl' as <-.
  eexists. split; [exact Ht | reflexivity].
Qed.

(** C4.  When the link field of an entry is a sequence whose first element
    carries an href attribute, the normalised link is that href; when it
    is a single element with an href, the normalised link is its href. *)
Theorem link_is_first_href (e : value) :
  (forall first rest attrs h,
      get e "link" = Ok (VArr (first :: rest)) ->
      get first "$" = Ok (VObj attrs) ->
      lookup "href" attrs = Some h ->
      exists t, normalize_entry e = Ok t /\ get t "link" = Ok h)
  /\ (forall l attrs h,
        get e "link" = Ok l -> isArray l = false ->
        get l "$" = Ok (VObj attrs) ->
        lookup "href" attrs = Some (VStr h) ->
        exists t, normalize_entry e = Ok t /\ get t "link" = Ok (VStr h)).
Proof.
  split.
  - intros first rest attrs h Hl Ha Hh.
    apply normalized_link.
    + unfold normalizable. rewrite Hl. simpl. rewrite Ha. reflexivity.
    + eapply link_of_sequence; eassumption.
  - intros l attrs h Hl Al Ha Hh.
    apply normalized_link.
    + unfold normalizable. rewrite Hl.
      destruct l; try reflexivity; discriminate.
    + eapply link_of_single; eassumption.
Qed.

Lemma link_is_first_href_witness :
  exists t, normalize_entry advisory = Ok t
            /\ get t "link" = Ok (VStr "https://www.tsunami.gov/events/1").
Proof.
  apply (proj1 (link_is_first_href advisory)
           (VObj [("$", VObj [("rel", VStr "alternate");
                              ("href", VStr "https://www.tsunami.gov/events/1")])])
           [VObj [("$", VObj [("rel", VStr "related");
                              ("href", VStr "https://www.tsunami.gov/events/1.xml")])]]
           [("rel", VStr "alternate");
            ("href", VStr "https://www.tsunami.gov/events/1")]
           (VStr "https://www.tsunami.gov/events/1"));
    reflexivity.
Defined.

(** An entry without a link, or with a single link that has no href, is
    still emitted, with the empty string as its link. *)
Lemma link_defaults_to_empty (e l : value) :
  get e "link" = Ok l -> lacks_href l = true ->
  exists t, normalize_entry e = Ok t /\ get t "link" = Ok (VStr EmptyString).
Proof.
  intros Hl Hlack. unfold lacks_href in Hlack.
  apply andb_prop in Hlack. destruct Hlack as [Al Hno].
  apply negb_true_iff in Al.
  apply normalized_link.
  - unfold normalizable. rewrite Hl. destruct l; try reflexivity; discriminate.
  - unfold link_of, and_then, or_else. rewrite Hl. cbn [bind]. rewrite Al.
    destruct (truthy l) eqn:Tl; cbn [bind];
      [|rewrite Tl; cbn [bind]; rewrite Tl; reflexivity].
    destruct (get_ok l "$" (truthy_coercible l Tl)) as [a Ha].
    rewrite Ha in *. cbn [bind].
    destruct (truthy a) eqn:Ta; cbn [bind]; [|rewrite Ta; reflexivity].
    destruct a as [| | b | q | s | items | attrs | name]; try discriminate;
      try reflexivity.
    unfold has_key in Hno. cbn [bind get].
    destruct (lookup "href" attrs); [discriminate | reflexivity].
Qed.

(** A missing summary becomes the empty string, a text summary is kept,
    and a summary node with attributes and text becomes its text. *)
Lemma summary_text_or_empty (e : value) :
  (get e "summary" = Ok VUndef -> summary_of e = Ok (VStr EmptyString))
  /\ (forall text, get e "summary" = Ok (VStr text) ->
      summary_of e = Ok (VStr text))
  /\ (forall ps text,
        get e "summary" = Ok (VObj ps) ->
        lookup "_" ps = Some (VStr text) -> text <> EmptyString ->
        summary_of e = Ok (VStr text)).
Proof.
  repeat split.
  - intros H. unfold summary_of, and_then. rewrite H. reflexivity.
  - intros text H. unfold summary_of, and_then, or_else. rewrite H.
    cbn [bind truthy get].
    destruct (String.eqb text EmptyString) eqn:E; cbn; try rewrite E; cbn.
    + apply String.eqb_eq in E. subst. reflexivity.
    + reflexivity.
  - intros ps text H Hl Hne. unfold summary_of, and_then. rewrite H.
    cbn [bind truthy get]. rewrite Hl. cbn [truthy].
    apply String.eqb_neq in Hne. rewrite Hne. reflexivity.
Qed.

(** A summary node that has attributes and no text is kept as the node. *)
Lemma summary_without_text (e : value) (ps : list (string * value)) :
  get e "summary" = Ok (VObj ps) -> lookup "_" ps = None ->
  summary_of e = Ok (VObj ps).
Proof.
  intros H Hl. unfold summary_of, and_then. rewrite H.
  cbn [bind truthy get]. rewrite Hl. reflexivity.
Qed.

(** C10, at an entry whose summary has a type attribute and no text: the
    entry is emitted with the empty string as its link, and its summary is
    the attribute node itself, neither a text nor the empty string. *)
Theorem attribute_only_summary_is_kept_as_node :
  normalize_entry bare_summary_entry
  = Ok (VObj [("id", VStr "urn:uuid:7"); ("title", VStr "Tsunami Statement");
              ("updated", VStr "2024-05-01T10:00:00Z");
              ("summary", VObj [("$", VObj [("type", VStr "html")])]);
              ("link", VStr EmptyString)])
  /\ item_json (VObj [("$", VObj [("type", VStr "html")])])
     = JObj [("$", JObj [("type", JStr "html")])].
Proof. split; reflexivity. Qed.

(** *** The volcano scan *)

Section BoundedPush.

Variables A B : Type.
Variable pick : B -> option A.
Variable cap : nat.
Variable step : list A -> B -> list A.

Hypothesis step_pushes :
  forall acc b,
    step acc b
    = if (cap <=? List.length acc)%nat then acc
      else match pick b with
           | Some a => (acc ++ [a])%list
           | None => acc
           end.

(** A loop that pushes what [pick] accepts until [cap] entries are held
    collects the first entries that fit. *)
Lemma fold_bounded_push (bs : list B) (acc : list A) :
  fold_left step bs acc
  = (acc ++ firstn (cap - List.length acc) (picked pick bs))%list.
Proof.
  revert acc. induction bs as [|b bs IH]; intros acc; simpl.
  - rewrite firstn_nil, app_nil_r. reflexivity.
  - rewrite IH, step_pushes.
    destruct (Nat.leb_spec cap (List.length acc)) as [Hfull|Hroom].
    + replace (cap - List.length acc)%nat with 0%nat by lia. reflexivity.
    + destruct (pick b) as [a|]; [|reflexivity].
      rewrite length_app. simpl.
      replace (cap - List.length acc)%nat
        with (S (cap - (List.length acc + 1)))%nat by lia.
      simpl. rewrite <- app_assoc. reflexivity.
Qed.

End BoundedPush.

Lemma tr_step_pushes (acc : list value) (tr : node) :
  tr_step acc tr
  = if (8 <=? List.length acc)%nat then acc
    else match tr_pick tr with
         | Some a => (acc ++ [a])%list
         | None => acc
         end.
Proof.
  unfold tr_step, tr_pick.
  destruct (8 <=? List.length acc)%nat; [reflexivity|].
  destruct (1 <=? List.length (find "td" tr))%nat; [|reflexivity].
  destruct (String.eqb (trim (text_at (find "td" tr) 0)) EmptyString);
    reflexivity.
Qed.

Lemma li_step_pushes (acc : list value) (li : node) :
  li_step acc li
  = if (8 <=? List.length acc)%nat then acc
    else match li_pick li with
         | Some a => (acc ++ [a])%list
         | None => acc
         end.
Proof.
  unfold li_step, li_pick.
  destruct (8 <=? List.length acc)%nat; [reflexivity|].
  destruct (10 <? String.length (trim (text_of li)))%nat; reflexivity.
Qed.

Lemma table_strategy_picks (doc : list node) :
  table_strategy doc = firstn 8 (picked tr_pick (select_table_tr doc)).
Proof.
  unfold table_strategy.
  rewrite (fold_bounded_push tr_pick 8 tr_step tr_step_pushes). reflexivity.
Qed.

Lemma fallback_strategy_picks (doc : list node) :
  fallback_strategy doc [] = firstn 8 (picked li_pick (select "li" doc)).
Proof.
  unfold fallback_strategy.
  rewrite (fold_bounded_push li_pick 8 li_step li_step_pushes). reflexivity.
Qed.

Lemma picked_li (items : list node) :
  picked li_pick items
  = map (fun text => eruption (substring 0 60 text) EmptyString)
      (filter (fun text => (10 <? String.length text)%nat)
         (map (fun li => trim (text_of li)) items)).
Proof.
  induction items as [|li items IH]; simpl; [reflexivity|].
  unfold li_pick at 1.
  destruct (10 <? String.length (trim (text_of li)))%nat; simpl;
    rewrite IH; reflexivity.
Qed.

Lemma scrape_bounded (doc : list node) : (List.length (scrape doc) <= 8)%nat.
Proof. unfold scrape. apply firstn_le_length. Qed.

Lemma substring_length (n : nat) (s : string) :
  String.length (substring 0 n s) = Nat.min n (String.length s).
Proof.
  revert n. induction s as [|c s IH]; intros [|n]; simpl; try reflexivity.
  rewrite IH. reflexivity.
Qed.

Lemma substring_prefix (n : nat) (s : string) :
  prefix (substring 0 n s) s = true.
Proof.
  revert n. induction s as [|c s IH]; intros [|n]; simpl; try reflexivity.
  destruct (ascii_dec c c) as [_|Hc]; [apply IH | contradiction].
Qed.

(** C5.  The volcano route always ends in a reply: the error envelope, or
    a success envelope whose data is a list of at most 8 entries.  When
    the page is fetched and loaded and neither the table rows nor the list
    items give an entry, the reply is the success envelope with the empty
    list. *)
Theorem volcanoes_bounded_or_error (net : network)
    (load : value -> result (list node)) :
  (failed Volcanoes (volcanoes net load)
   \/ (status (volcanoes net load) = 200%Z
       /\ exists entries,
            body (volcanoes net load)
            = Some (success_envelope Volcanoes (JArr entries))
            /\ (List.length entries <= 8)%nat))
  /\ (forall st c doc,
        net volcanoes_request = Reply st c -> is_2xx st = true ->
        load (transformResponse c) = Ok doc ->
        table_strategy doc = [] -> fallback_strategy doc [] = [] ->
        volcanoes net load
        = {| console := []; status := 200;
             body := Some (JObj [("ok", JBool true); ("source", JStr "gvp");
                                 ("data", JArr [])]) |}).
Proof.
  split.
  - unfold volcanoes, axios_get, failed.
    destruct (net volcanoes_request) as [why| |st c]; simpl;
      try (left; split; reflexivity).
    destruct ((200 <=? st)%Z && (st <? 300)%Z); simpl;
      try (left; split; reflexivity).
    destruct (load (transformResponse c)) as [doc|e]; simpl;
      try (left; split; reflexivity).
    right. split; [reflexivity|].
    exists (map item_json (scrape doc)). split; [reflexivity|].
    rewrite length_map. apply scrape_bounded.
  - intros st c doc Hnet H2xx Hload Htable Hlist.
    unfold volcanoes. rewrite (axios_resolves _ _ Hnet H2xx). simpl.
    rewrite Hload. simpl. unfold scrape. rewrite Htable. simpl.
    rewrite Hlist. reflexivity.
Qed.

Lemma volcanoes_bounded_or_error_witness :
  volcanoes html_page (loads empty_page)
  = {| console := []; status := 200;
       body := Some (JObj [("ok", JBool true); ("source", JStr "gvp");
                           ("data", JArr [])]) |}.
Proof.
  apply (proj2 (volcanoes_bounded_or_error html_page (loads empty_page))
           200%Z (Text "<html>") empty_page); reflexivity.
Defined.

(** C6.  The list items are scanned only when the table rows gave no
    entry.  The scan then emits, for each list item whose trimmed text is
    longer than 10 code units and in document order, the entry whose name
    is the first 60 code units of that text and whose status is empty, and
    keeps the first 8 of them. *)
Theorem fallback_after_empty_table (doc : list node) :
  (table_strategy doc <> [] -> scrape doc = table_strategy doc)
  /\ (table_strategy doc = [] ->
      scrape doc
      = firstn 8
          (map (fun text => eruption (substring 0 60 text) EmptyString)
             (filter (fun text => (10 <? String.length text)%nat)
                (map (fun li => trim (text_of li)) (select "li" doc)))))
  /\ (forall text,
        String.length (substring 0 60 text)
        = Nat.min 60 (String.length text)
        /\ prefix (substring 0 60 text) text = true).
Proof.
  split; [|split].
  - intros Hne. unfold scrape.
    destruct (table_strategy doc) as [|x xs] eqn:Ht; [contradiction|].
    simpl (List.length (x :: xs) =? 0)%nat. cbv iota.
    rewrite <- Ht, table_strategy_picks, firstn_firstn. reflexivity.
  - intros Ht. unfold scrape. rewrite Ht. cbn [List.length Nat.eqb].
    rewrite fallback_strategy_picks, firstn_firstn, picked_li. reflexivity.
  - intros text. split; [apply substring_length | apply substring_prefix].
Qed.

Lemma fallback_after_empty_table_witness :
  table_strategy list_page = []
  /\ scrape list_page
     = [eruption "Etna (Italy), continuing" EmptyString;
        eruption "Kilauea (United States)" EmptyString]
  /\ table_strategy eruptions_page <> []
  /\ scrape eruptions_page
     = [eruption "Etna" "Ongoing"; eruption "Kilauea" EmptyString].
Proof.
  split; [reflexivity|]. split.
  - rewrite (proj1 (proj2 (fallback_after_empty_table list_page)) eq_refl).
    reflexivity.
  - split; [discriminate|].
    rewrite (proj1 (fallback_after_empty_table eruptions_page));
      [reflexivity | discriminate].
Defined.

End ServerFacts.

(* ===================================================================== *)
(** ** Properties of the renderer                                         *)
(* ===================================================================== *)

Module AppFacts.

Import JS Server App Contract Samples Shapes JSFacts.
Local Open Scope string_scope.

(** *** Marker colours *)

Lemma marker_color_red (q : Q) : (5 <= q)%Q -> marker_color q = "red".
Proof.
  intros H. unfold marker_color.
  rewrite (proj2 (Qle_bool_iff 5 q) H). reflexivity.
Qed.

Lemma marker_color_orange (q : Q) :
  (3 <= q)%Q -> (q < 5)%Q -> marker_color q = "orange".
Proof.
  intros H3 H5. unfold marker_color.
  destruct (Qle_bool 5 q) eqn:E.
  - apply Qle_bool_iff in E. exfalso. exact (Qlt_not_le _ _ H5 E).
  - rewrite (proj2 (Qle_bool_iff 3 q) H3). reflexivity.
Qed.

Lemma marker_color_yellow (q : Q) : (q < 3)%Q -> marker_color q = "yellow".
Proof.
  intros H3. unfold marker_color.
  destruct (Qle_bool 5 q) eqn:E5.
  - apply Qle_bool_iff in E5. exfalso.
    apply (Qlt_not_le _ _ H3). apply Qle_trans with 5%Q; [|exact E5].
    discriminate.
  - destruct (Qle_bool 3 q) eqn:E3; [|reflexivity].
    apply Qle_bool_iff in E3. exfalso. exact (Qlt_not_le _ _ H3 E3).
Qed.

(** What the [forEach] body makes of a feature it renders. *)
Lemma render_feature_inv (circleMarker : value -> value -> result unit)
    (f : value) (li : list_item) (mk : marker) :
  render_feature circleMarker f = Ok (li, mk) ->
  exists props m,
    get f "properties" = Ok props /\ get props "mag" = Ok m
    /\ or_else m (VNum 0) = VNum (shown_mag li)
    /\ target li = f
    /\ color mk = marker_color (shown_mag li)
    /\ fillColor mk = marker_color (shown_mag li)
    /\ radius mk = marker_radius (shown_mag li).
Proof.
  unfold render_feature. intros H.
  bind_inv H. bind_inv H.
  exists x, x0. split; [exact Hx|]. split; [exact Hx0|].
  repeat (bind_inv H).
  inversion H; subst li mk; clear H. simpl.
  match goal with
  | Hq : toFixed_receiver _ = Ok _ |- _ =>
      unfold toFixed_receiver in Hq;
      destruct (or_else x0 (VNum 0)); try discriminate;
      inversion Hq
  end.
  repeat split; reflexivity.
Qed.

(** C9.  The colour of the marker of a rendered feature is a function of
    the magnitude shown for it, which is the feature's [mag] (or 0 when
    that is falsy): red from 5 up, orange from 3 up to 5, yellow below 3;
    the fill colour is the same. *)
Theorem marker_color_bands (circleMarker : value -> value -> result unit)
    (f : value) (li : list_item) (mk : marker) :
  render_feature circleMarker f = Ok (li, mk) ->
  (exists props m,
      get f "properties" = Ok props /\ get props "mag" = Ok m
      /\ or_else m (VNum 0) = VNum (shown_mag li))
  /\ color mk = marker_color (shown_mag li)
  /\ fillColor mk = color mk
  /\ ((5 <= shown_mag li)%Q -> color mk = "red")
  /\ ((3 <= shown_mag li)%Q -> (shown_mag li < 5)%Q -> color mk = "orange")
  /\ ((shown_mag li < 3)%Q -> color mk = "yellow").
Proof.
  intros H.
  destruct (render_feature_inv circleMarker f H)
    as (props & m & Hp & Hm & Hshown & _ & Hc & Hf & _).
  split; [exists props, m; repeat split; assumption|].
  split; [exact Hc|]. split; [congruence|].
  rewrite Hc. split; [apply marker_color_red|].
  split; [apply marker_color_orange | apply marker_color_yellow].
Qed.

Lemma marker_color_bands_witness :
  exists li mk,
    render_feature numeric_markers (quake (52 # 10) "Alaska") = Ok (li, mk)
    /\ shown_mag li = nearest_double (52 # 10) /\ color mk = "red".
Proof.
  eexists. eexists. split; [reflexivity|]. split; [reflexivity|].
  apply (proj1 (proj2 (proj2 (proj2
           (@marker_color_bands numeric_markers (quake (52 # 10) "Alaska")
              _ _ eq_refl))))).
  vm_compute. discriminate.
Defined.

(** *** Sorting by magnitude *)

Lemma sortable_inv (f : value) :
  sortable f = true ->
  exists props m,
    get f "properties" = Ok props /\ get props "mag" = Ok m
    /\ (m = VNull \/ exists q, m = VNum q).
Proof.
  unfold sortable. intros H.
  destruct (get f "properties") as [props|] eqn:Hp; [|discriminate].
  destruct (get props "mag") as [m|] eqn:Hm; [|discriminate].
  exists props, m.
  destruct m; try discriminate; repeat split; auto.
  right. eexists; reflexivity.
Qed.

Lemma renderable_inv (f : value) :
  renderable f = true ->
  sortable f = true /\ placeable f = true /\ printable f = true.
Proof.
  unfold renderable, sortable, placeable. intros H.
  destruct (get f "properties") as [props|] eqn:Hp; [|discriminate].
  destruct (get props "mag") as [m|] eqn:Hm; [|discriminate].
  destruct (get f "geometry") as [g|] eqn:Hg;
    [|destruct m; discriminate].
  destruct (get g "coordinates") as [c|] eqn:Hc;
    [|destruct m; discriminate].
  destruct m; try discriminate; apply andb_prop in H; destruct H as [H1 H2];
    repeat split; assumption.
Qed.

Lemma printable_inv (f props : value) :
  printable f = true -> get f "properties" = Ok props ->
  exists place time url,
    get props "place" = Ok place /\ convertible place = true
    /\ get props "time" = Ok time /\ convertible time = true
    /\ get props "url" = Ok url /\ convertible url = true.
Proof.
  unfold printable. intros H Hp. rewrite Hp in H.
  destruct (get props "place") as [place|]; [|discriminate].
  destruct (get props "time") as [time|]; [|discriminate].
  destruct (get props "url") as [url|]; [|discriminate].
  apply andb_prop in H. destruct H as [H Hu].
  apply andb_prop in H. destruct H as [Hpl Ht].
  exists place, time, url. repeat split; assumption.
Qed.

Lemma placeable_inv (f : value) :
  placeable f = true ->
  exists geometry coordinates,
    get f "geometry" = Ok geometry
    /\ get geometry "coordinates" = Ok coordinates
    /\ object_coercible coordinates = true.
Proof.
  unfold placeable. intros H.
  destruct (get f "geometry") as [g|] eqn:Hg; [|discriminate].
  destruct (get g "coordinates") as [c|] eqn:Hc; [|discriminate].
  exists g, c. repeat split; assumption.
Qed.

Section Sorting.

Variable coerce : value -> result number.

Lemma by_mag_desc_pure (a b : value) :
  sortable a = true -> sortable b = true ->
  by_mag_desc coerce a b = Ok (Num (mag_number b - mag_number a)).
Proof.
  intros Ha Hb.
  destruct (sortable_inv a Ha) as (pa & ma & Hpa & Hma & Ka).
  destruct (sortable_inv b Hb) as (pb & mb & Hpb & Hmb & Kb).
  unfold by_mag_desc, mag_number. rewrite Hpa, Hpb. cbn [bind].
  rewrite Hma, Hmb. cbn [bind].
  destruct Ka as [->|[qa ->]]; destruct Kb as [->|[qb ->]]; reflexivity.
Qed.

Lemma insert_by_mag_Forall (P : value -> Prop) (x : value) (ys : list value) :
  P x -> Forall P ys -> Forall P (insert_by_mag x ys).
Proof.
  intros Hx Hys. induction Hys as [|y ys Hy Hys IH]; cbn [insert_by_mag].
  - constructor; [exact Hx | constructor].
  - destruct (positive (Num (mag_number y - mag_number x))).
    + constructor; assumption.
    + constructor; [exact Hx|]. constructor; assumption.
Qed.

Lemma sort_by_mag_Forall (P : value -> Prop) (fs : list value) :
  Forall P fs -> Forall P (sort_by_mag fs).
Proof.
  induction 1 as [|x xs Hx Hxs IH]; cbn [sort_by_mag]; [constructor|].
  apply insert_by_mag_Forall; assumption.
Qed.

Lemma insert_pure (x : value) (ys : list value) :
  sortable x = true -> Forall (fun f => sortable f = true) ys ->
  insert (by_mag_desc coerce) x ys = Ok (insert_by_mag x ys).
Proof.
  intros Hx Hys. induction Hys as [|y ys Hy Hys IH]; cbn [insert insert_by_mag]; [reflexivity|].
  rewrite (by_mag_desc_pure x y Hx Hy). cbn [bind].
  destruct (positive (Num (mag_number y - mag_number x))); [|reflexivity].
  rewrite IH. reflexivity.
Qed.

(** On features with a number or [null] magnitude the comparator never
    throws, and the sort is the stable sort by descending magnitude. *)
Lemma sort_pure (fs : list value) :
  Forall (fun f => sortable f = true) fs ->
  sort (by_mag_desc coerce) fs = Ok (sort_by_mag fs).
Proof.
  induction 1 as [|x xs Hx Hxs IH]; cbn [sort sort_by_mag]; [reflexivity|].
  rewrite IH. cbn [bind].
  apply insert_pure; [exact Hx | apply sort_by_mag_Forall; exact Hxs].
Qed.

End Sorting.

Lemma positive_lt (x y : Q) :
  positive (Num (y - x)) = true <-> (x < y)%Q.
Proof.
  unfold positive. rewrite negb_true_iff. split.
  - intros H. apply Qnot_le_lt. intros Hle.
    assert (Qle_bool (y - x) 0 = true) as E.
    { apply Qle_bool_iff. unfold Qle, Qminus, Qplus, Qopp in *.
      simpl in *. nia. }
    congruence.
  - intros H. destruct (Qle_bool (y - x) 0) eqn:E; [|reflexivity].
    apply Qle_bool_iff in E. exfalso. apply (Qlt_not_le _ _ H).
    unfold Qle, Qminus, Qplus, Qopp in *. simpl in *. nia.
Qed.

Lemma mag_ge_trans (a b c : value) : mag_ge a b -> mag_ge b c -> mag_ge a c.
Proof. unfold mag_ge. intros H1 H2. eapply Qle_trans; eassumption. Qed.

Lemma insert_by_mag_perm (x : value) (ys : list value) :
  Permutation (x :: ys) (insert_by_mag x ys).
Proof.
  induction ys as [|y ys IH]; cbn [insert_by_mag]; [reflexivity|].
  destruct (positive (Num (mag_number y - mag_number x))); [|reflexivity].
  rewrite perm_swap. apply perm_skip. exact IH.
Qed.

Lemma sort_by_mag_perm (fs : list value) : Permutation fs (sort_by_mag fs).
Proof.
  induction fs as [|x xs IH]; cbn [sort_by_mag]; [constructor|].
  rewrite <- insert_by_mag_perm. apply perm_skip. exact IH.
Qed.

Lemma insert_by_mag_sorted (x : value) (ys : list value) :
  StronglySorted mag_ge ys -> StronglySorted mag_ge (insert_by_mag x ys).
Proof.
  induction 1 as [|y ys Hs IH Hy]; cbn [insert_by_mag].
  - constructor; constructor.
  - destruct (positive (Num (mag_number y - mag_number x))) eqn:E.
    + constructor; [exact IH|].
      apply (Permutation_Forall (insert_by_mag_perm x ys)).
      constructor; [|exact Hy].
      apply positive_lt in E. apply Qlt_le_weak. exact E.
    + assert (mag_ge x y) as Hxy.
      { unfold mag_ge. apply Qnot_lt_le. intros Hlt.
        apply positive_lt in Hlt. congruence. }
      constructor; [constructor; assumption|].
      constructor; [exact Hxy|].
      eapply Forall_impl; [|exact Hy].
      intros z Hz. eapply mag_ge_trans; eassumption.
Qed.

Lemma sort_by_mag_sorted (fs : list value) :
  StronglySorted mag_ge (sort_by_mag fs).
Proof.
  induction fs as [|x xs IH]; cbn [sort_by_mag]; [constructor|].
  apply insert_by_mag_sorted. exact IH.
Qed.

(** *** The earthquake list *)

Lemma convertible_or_else (p : value) (s : string) :
  convertible p = true -> convertible (or_else p (VStr s)) = true.
Proof. unfold or_else. intros H. destruct (truthy p); [exact H | reflexivity]. Qed.

Lemma ToPrimitive_ok (v : value) :
  convertible v = true -> ToPrimitive v = Ok v.
Proof. unfold ToPrimitive. intros ->. reflexivity. Qed.

Section Features.

Variable circleMarker : value -> value -> result unit.

Lemma render_feature_total (f : value) :
  renderable f = true -> marked circleMarker f = true ->
  exists r, render_feature circleMarker f = Ok r /\ shows f (fst r).
Proof.
  intros H Hmark.
  destruct (renderable_inv f H) as (Hs & Hpl & Hpr).
  destruct (sortable_inv f Hs) as (props & m & Hp & Hm & Km).
  destruct (placeable_inv f Hpl) as (g & c & Hg & Hc & Kc).
  destruct (printable_inv f Hpr Hp)
    as (place & time & u & Hplace & Kplace & Htime & Ktime & Hu & Ku).
  destruct (index_ok c 1 Kc) as [lat1 Hlat].
  destruct (index_ok c 0 Kc) as [lon0 Hlon].
  assert (circleMarker lat1 lon0 = Ok tt) as Hcm.
  { unfold marked in Hmark. rewrite Hg in Hmark. cbn [bind] in Hmark.
    rewrite Hc in Hmark. cbn [bind] in Hmark.
    rewrite Hlat in Hmark. cbn [bind] in Hmark.
    rewrite Hlon in Hmark. cbn [bind] in Hmark.
    destruct (circleMarker lat1 lon0) as [[]|]; [reflexivity | discriminate]. }
  assert (exists q, toFixed_receiver (or_else m (VNum 0)) = Ok q
                    /\ (q == mag_number f)%Q) as [q [Hq Eq]].
  { unfold mag_number. rewrite Hp, Hm.
    destruct Km as [->|[q ->]].
    - exists 0%Q. split; reflexivity.
    - unfold or_else. cbn [truthy].
      destruct (Qeq_bool q 0) eqn:E; cbn [negb toFixed_receiver].
      + exists 0%Q. split; [reflexivity|].
        apply Qeq_bool_iff in E. symmetry. exact E.
      + exists q. split; reflexivity. }
  unfold render_feature.
  rewrite Hp. cbn [bind]. rewrite Hm. cbn [bind].
  rewrite Hplace. cbn [bind]. rewrite Htime. cbn [bind].
  rewrite (ToPrimitive_ok time Ktime). cbn [bind].
  rewrite Hq. cbn [bind].
  rewrite (ToPrimitive_ok _ (convertible_or_else place "Unknown" Kplace)).
  cbn [bind]. rewrite Hg. cbn [bind]. rewrite Hc. cbn [bind].
  rewrite Hlat. cbn [bind]. rewrite Hlon. cbn [bind].
  rewrite Hcm. cbn [bind]. rewrite Hu. cbn [bind].
  rewrite (ToPrimitive_ok u Ku). cbn [bind].
  eexists. split; [reflexivity|]. split; [reflexivity | exact Eq].
Qed.

Lemma forEach_renderable (fs : list value) :
  Forall (fun f => renderable f = true /\ marked circleMarker f = true) fs ->
  forall items markers,
  exists rs,
    forEach circleMarker fs items markers
    = Ok ((items ++ map fst rs)%list, (markers ++ map snd rs)%list)
    /\ Forall2 shows fs (map fst rs).
Proof.
  induction 1 as [|f fs [Hf Hm] Hfs IH]; intros items markers.
  - exists []. simpl. rewrite !app_nil_r. split; [reflexivity | constructor].
  - destruct (render_feature_total f Hf Hm) as [r [Hr Hshows]].
    destruct (IH (items ++ [fst r])%list (markers ++ [snd r])%list)
      as [rs [Hrs Hall]].
    exists (r :: rs). cbn [forEach]. rewrite Hr. cbn [bind]. rewrite Hrs.
    simpl. rewrite <- !app_assoc. split; [reflexivity|].
    constructor; assumption.
Qed.

End Features.

Lemma sorted_app (A : Type) (R : A -> A -> Prop) (l1 l2 : list A) :
  StronglySorted R (l1 ++ l2) ->
  StronglySorted R l1
  /\ forall a b, In a l1 -> In b l2 -> R a b.
Proof.
  induction l1 as [|x l1 IH]; simpl; intros H.
  - split; [constructor | intros a b []].
  - inversion H as [|y l Hs Hx]; subst.
    destruct (IH Hs) as [Hs1 Hcross].
    apply Forall_app in Hx. destruct Hx as [Hx1 Hx2].
    split; [constructor; assumption|].
    intros a b [<-|Ha] Hb.
    + rewrite Forall_forall in Hx2. apply Hx2. exact Hb.
    + apply Hcross; assumption.
Qed.

Lemma shows_sorted (fs : list value) (items : list list_item) :
  Forall2 shows fs items -> StronglySorted mag_ge fs ->
  StronglySorted (fun a b => (shown_mag b <= shown_mag a)%Q) items.
Proof.
  induction 1 as [|f li fs items [_ Hli] Hall IH]; intros Hs;
    [constructor|].
  inversion Hs as [|y l Hs' Hf]; subst.
  constructor; [apply IH; exact Hs'|].
  clear IH Hs Hs'. induction Hall as [|f' li' fs items [_ Hli'] Hall IH'];
    [constructor|].
  inversion Hf as [|y l Hff' Hf']; subst.
  constructor; [|apply IH'; exact Hf'].
  unfold mag_ge in Hff'. rewrite Hli, Hli'. exact Hff'.
Qed.

Lemma shows_targets (fs : list value) (items : list list_item) :
  Forall2 shows fs items -> map target items = fs.
Proof.
  induction 1 as [|f li fs items [Ht _] Hall IH]; simpl; [reflexivity|].
  rewrite Ht, IH. reflexivity.
Qed.

Lemma render_quakes_features (coerce : value -> result number)
    (circleMarker : value -> value -> result unit) (eq : value)
    (fs : list value) :
  carries_features eq fs ->
  render_quakes coerce circleMarker eq
  = (sorted <- sort (by_mag_desc coerce) fs ;;
     r <- forEach circleMarker (firstn 50 sorted) [] [] ;;
     Ok (Quakes (List.length fs) (fst r) (snd r))).
Proof.
  intros (Te & ok & d & Hok & Tok & Hd & Td & Hf).
  unfold render_quakes, and_then.
  rewrite Te, Hok. cbn [bind]. rewrite Tok, Hd. cbn [bind].
  rewrite Td, Hf. cbn [bind isArray truthy]. reflexivity.
Qed.

Lemma Forall_firstn (A : Type) (P : A -> Prop) (n : nat) (l : list A) :
  Forall P l -> Forall P (firstn n l).
Proof.
  intros H. rewrite <- (firstn_skipn n l) in H.
  apply Forall_app in H. exact (proj1 H).
Qed.

(** C8, as the code has it.  For a success envelope whose features carry a
    number or [null] as magnitude, coordinates that can be indexed and
    that Leaflet takes, and a place, time and url that convert to strings,
    the list shows the features in descending order of magnitude, stably,
    and only the first 50 of that order: every feature left out has a
    magnitude no greater than any feature shown.  For the magnitudes 5.2,
    2.1, 6.8 the list shows 6.8, 5.2, 2.1. *)
Theorem quakes_sorted_top_50 (coerce : value -> result number)
    (circleMarker : value -> value -> result unit) :
  (forall eq fs,
      carries_features eq fs ->
      forallb renderable fs = true ->
      forallb (marked circleMarker) fs = true ->
      exists items markers rest,
        render_quakes coerce circleMarker eq
        = Ok (Quakes (List.length fs) items markers)
        /\ List.length items = Nat.min 50 (List.length fs)
        /\ List.length markers = List.length items
        /\ StronglySorted (fun a b => (shown_mag b <= shown_mag a)%Q) items
        /\ Forall2 shows (firstn 50 (sort_by_mag fs)) items
        /\ Permutation (map target items ++ rest) fs
        /\ (forall li r,
              In li items -> In r rest ->
              (mag_number r <= shown_mag li)%Q))
  /\ rendered_mags (render_quakes coerce numeric_markers three_quakes)
     = map nearest_double [68 # 10; 52 # 10; 21 # 10]%Q.
Proof.
  split; [|reflexivity].
  intros eq fs Hc Hr Hm. rewrite forallb_forall in Hr, Hm.
  assert (Forall (fun f => renderable f = true
                           /\ marked circleMarker f = true) fs) as Hall.
  { apply Forall_forall. intros f Hf. split; [apply Hr | apply Hm]; exact Hf. }
  assert (Forall (fun f => sortable f = true) fs) as Hsortable.
  { eapply Forall_impl; [|exact Hall].
    intros f [Hf _]. exact (proj1 (renderable_inv f Hf)). }
  rewrite (render_quakes_features coerce circleMarker Hc),
    (sort_pure coerce Hsortable).
  cbn [bind].
  pose proof (Forall_firstn 50 (sort_by_mag_Forall Hall)) as Htop.
  pose proof (sort_by_mag_sorted fs) as Hss.
  pose proof (sort_by_mag_perm fs) as Hperm.
  rewrite <- (firstn_skipn 50 (sort_by_mag fs)) in Hss.
  apply sorted_app in Hss. destruct Hss as [Hstop Hcross].
  destruct (@forEach_renderable circleMarker _ Htop [] [])
    as [rs [Hrs Hshows]].
  rewrite Hrs. cbn [bind app fst snd].
  exists (map fst rs), (map snd rs), (skipn 50 (sort_by_mag fs)).
  split; [reflexivity|].
  split.
  { rewrite <- (Forall2_length Hshows), length_firstn.
    rewrite <- (Permutation_length Hperm). reflexivity. }
  split; [rewrite !length_map; reflexivity|].
  split; [exact (shows_sorted Hshows Hstop)|].
  split; [exact Hshows|].
  split.
  { rewrite (shows_targets Hshows), firstn_skipn. symmetry. exact Hperm. }
  intros li r Hli Hin.
  assert (exists f, In f (firstn 50 (sort_by_mag fs)) /\ shows f li)
    as (f & Hf & _ & Hmag).
  { clear - Hshows Hli. induction Hshows as [|f li' fs' items' Hs Hall IH].
    - destruct Hli.
    - destruct Hli as [<-|Hli].
      + exists f. split; [left; reflexivity | exact Hs].
      + destruct (IH Hli) as (f' & Hf' & Hs').
        exists f'. split; [right; exact Hf' | exact Hs']. }
  rewrite Hmag. exact (Hcross f r Hf Hin).
Qed.

(** The markers of the three features, in the order of the list. *)
Example three_quakes_colors (coerce : value -> result number) :
  rendered_colors (render_quakes coerce numeric_markers three_quakes)
  = ["red"; "red"; "yellow"].
Proof. reflexivity. Qed.

Lemma quakes_sorted_top_50_witness :
  exists items markers rest,
    render_quakes no_coercion numeric_markers three_quakes
    = Ok (Quakes 3 items markers)
    /\ List.length items = 3%nat
    /\ List.length markers = List.length items
    /\ StronglySorted (fun a b => (shown_mag b <= shown_mag a)%Q) items
    /\ Forall2 shows
         [quake (68 # 10) "Chile"; quake (52 # 10) "Alaska";
          quake (21 # 10) "California"] items
    /\ Permutation (map target items ++ rest)
         [quake (52 # 10) "Alaska"; quake (21 # 10) "California";
          quake (68 # 10) "Chile"]
    /\ (forall li r,
          In li items -> In r rest -> (mag_number r <= shown_mag li)%Q).
Proof.
  apply (proj1 (quakes_sorted_top_50 no_coercion numeric_markers) three_quakes
           [quake (52 # 10) "Alaska"; quake (21 # 10) "California";
            quake (68 # 10) "Chile"]).
  - split; [reflexivity|].
    exists (VBool true).
    exists (VObj [("type", VStr "FeatureCollection");
                  ("features",
                   VArr [quake (52 # 10) "Alaska";
                         quake (21 # 10) "California";
                         quake (68 # 10) "Chile"])]).
    repeat split; reflexivity.
  - reflexivity.
  - reflexivity.
Defined.

(** C8, as the specification words it, fails: a feature without a
    magnitude compares as [NaN] with every other one, so the sort leaves
    the feed order, and the list shows 1, 0, 2 without any exception. *)
Lemma unrated_feature_breaks_order :
  (exists items markers,
      render_quakes no_coercion numeric_markers gapped_quakes
      = Ok (Quakes 3 items markers))
  /\ rendered_mags (render_quakes no_coercion numeric_markers gapped_quakes)
     = [1; 0; 2]%Q
  /\ ~ StronglySorted (fun a b : Q => (b <= a)%Q)
         (rendered_mags
            (render_quakes no_coercion numeric_markers gapped_quakes)).
Proof.
  split; [eexists; eexists; reflexivity|].
  assert (rendered_mags
            (render_quakes no_coercion numeric_markers gapped_quakes)
          = [1; 0; 2]%Q) as E by reflexivity.
  split; [exact E|]. rewrite E. intros H.
  inversion H as [|a l _ H1]; subst.
  inversion H1 as [|b l' _ H2]; subst.
  inversion H2 as [|c l'' H3 _]; subst.
  revert H3. vm_compute. intros H3. apply H3. reflexivity.
Qed.

(** *** The flood list *)












End AppFacts.

(* ===================================================================== *)
(** ** Further properties of the feed routes                              *)
(* ===================================================================== *)

Module ServerExtras.

Import JS Server Contract Samples Dashboard Shapes MoreSamples JSFacts ServerFacts.
Local Open Scope string_scope.

(** *** What a route writes and answers *)

(** Each handler is its [try] block run under its [catch]. *)
Lemma handle_outcomes (net : network) (parseString : value -> result value)
    (load : value -> result (list node)) (rt : route) :
  (exists err, handle net parseString load rt = failure_reply rt err)
  \/ (console (handle net parseString load rt) = []
      /\ succeeded rt (handle net parseString load rt)).
Proof.
  destruct (handle_shape net parseString load rt) as [Hf|Hs].
  - left. destruct rt; simpl in *;
      unfold earthquakes, tsunami, volcanoes, floods, try_catch in *;
      match goal with
      | |- context [match ?body with Ok _ => _ | Throw _ => _ end] =>
          destruct body as [s|err] eqn:Hbody
      end;
      try (exists err; reflexivity).
    all: exfalso; repeat bind_inv Hbody; inversion Hbody; subst s;
      destruct Hf as [Hst _]; discriminate Hst.
  - right. split; [|exact Hs].
    destruct rt; simpl in *;
      unfold earthquakes, tsunami, volcanoes, floods, try_catch in *;
      match goal with
      | |- context [match ?body with Ok _ => _ | Throw _ => _ end] =>
          destruct body as [s|err] eqn:Hbody
      end.
    all: try (destruct Hs as [Hst _]; discriminate Hst).
    all: repeat bind_inv Hbody; inversion Hbody; reflexivity.
Qed.

(** X7.  A route that fails writes exactly one line to the console, its
    tag followed by the message of the exception, and answers 500 with its
    one error envelope; a route that succeeds writes nothing.  The line
    names the cause that the reply hides: for an unreachable upstream it
    carries the reason, for a timeout the timeout of the request. *)
Theorem failure_is_logged_once (net : network)
    (parseString : value -> result value)
    (load : value -> result (list node)) (rt : route) :
  ((exists err, handle net parseString load rt = failure_reply rt err)
   \/ (console (handle net parseString load rt) = []
       /\ succeeded rt (handle net parseString load rt)))
  /\ (forall why,
        net (request_of rt) = Unreachable why ->
        handle net parseString load rt
        = failure_reply rt (NetworkError why))
  /\ (net (request_of rt) = NoReplyInTime ->
      handle net parseString load rt
      = failure_reply rt (TimeoutError (timeout (request_of rt))))
  /\ (forall st c,
        net (request_of rt) = Reply st c -> is_2xx st = false ->
        handle net parseString load rt = failure_reply rt (StatusError st)).
Proof.
  split; [apply handle_outcomes|].
  repeat split.
  - intros why H. destruct rt; simpl in *;
      unfold earthquakes, tsunami, volcanoes, floods, axios_get;
      rewrite H; reflexivity.
  - intros H. destruct rt; simpl in *;
      unfold earthquakes, tsunami, volcanoes, floods, axios_get;
      rewrite H; reflexivity.
  - intros st c H H2. unfold is_2xx in H2. destruct rt; simpl in *;
      unfold earthquakes, tsunami, volcanoes, floods, axios_get;
      rewrite H, H2; reflexivity.
Qed.

Lemma failure_is_logged_once_witness :
  handle (fun _ => NoReplyInTime) strict_xml no_document Floods
  = {| console := ["floods error timeout of 12000ms exceeded"];
       status := 500;
       body := Some (JObj [("ok", JBool false);
                           ("error", JStr "Failed to fetch flood reports")]) |}.
Proof.
  apply (proj1 (proj2 (proj2
           (failure_is_logged_once (fun _ => NoReplyInTime) strict_xml
              no_document Floods)))).
  reflexivity.
Defined.

(** X6.  A route asks the network one question, its own request: two
    networks that answer that request alike get the same reply, console
    included, whatever they answer to the other routes. *)
Theorem route_reads_its_own_upstream (net net' : network)
    (parseString : value -> result value)
    (load : value -> result (list node)) (rt : route) :
  net (request_of rt) = net' (request_of rt) ->
  handle net parseString load rt = handle net' parseString load rt.
Proof.
  intros H. destruct rt; simpl in *;
    unfold earthquakes, tsunami, volcanoes, floods, axios_get;
    rewrite H; reflexivity.
Qed.

Lemma route_reads_its_own_upstream_witness :
  handle usgs_only strict_xml no_document Earthquakes
  = handle usgs_everywhere strict_xml no_document Earthquakes.
Proof.
  apply route_reads_its_own_upstream. reflexivity.
Defined.

(** *** Pass-through *)



(** *** The tsunami feed *)

Lemma link_of_throws (e l : value) :
  get e "link" = Ok l -> readable_link l = false ->
  exists err, link_of e = Throw err.
Proof.
  intros Hl Hr. unfold link_of. rewrite Hl. cbn [bind].
  destruct l as [| | | | | items | |]; try discriminate.
  cbn [isArray index]. destruct items as [|first rest]; cbn [nth bind].
  - eexists; reflexivity.
  - cbn [readable_link] in Hr.
    destruct (get first "$") as [attrs|err]; cbn [bind];
      [|eexists; reflexivity].
    destruct attrs; try discriminate; eexists; reflexivity.
Qed.

Lemma normalize_entry_throws (e : value) :
  normalizable e = false -> exists err, normalize_entry e = Throw err.
Proof.
  unfold normalizable. intros Hn.
  destruct (get e "link") as [l|err] eqn:Hl.
  - pose proof (get_ok_inv _ _ Hl) as He.
    destruct (get_ok e "id" He) as [id Hid].
    destruct (get_ok e "title" He) as [title Ht].
    destruct (get_ok e "updated" He) as [updated Hu].
    destruct (summary_of_total e He) as [summary Hs].
    destruct (link_of_throws e Hl Hn) as [err Herr].
    exists err. unfold normalize_entry.
    rewrite Hid, Ht, Hu, Hs, Herr. reflexivity.
  - destruct e; try discriminate; eexists; reflexivity.
Qed.

Lemma normalize_entry_ok_iff (e : value) :
  normalizable e = true <-> exists t, normalize_entry e = Ok t.
Proof.
  split.
  - intros H.
    destruct (normalize_entry_total e H)
      as (id & title & updated & summary & link & _ & _ & _ & _ & _ & Ht).
    eexists; exact Ht.
  - intros [t Ht]. destruct (normalizable e) eqn:E; [reflexivity|].
    destruct (normalize_entry_throws e E) as [err Herr]. congruence.
Qed.

Lemma mapM_throws (es : list value) :
  existsb (fun e => negb (normalizable e)) es = true ->
  exists err, mapM normalize_entry es = Throw err.
Proof.
  induction es as [|e es IH]; cbn [existsb mapM]; [discriminate|].
  intros H. destruct (normalizable e) eqn:E.
  - cbn [negb orb] in H. destruct (IH H) as [err Herr].
    destruct (normalize_entry e) as [t|err']; cbn [bind];
      [|eexists; reflexivity].
    rewrite Herr. eexists; reflexivity.
  - destruct (normalize_entry_throws e E) as [err Herr].
    rewrite Herr. eexists; reflexivity.
Qed.

(** X3.  The entry mapping throws exactly on an entry that is [null] or
    [undefined], or whose link is a sequence that is empty or whose first
    element has no attributes.  One such entry anywhere in the feed fails
    the whole route: the reply is the 500 error envelope, and no entry is
    served. *)
Theorem unreadable_entry_fails_the_feed (net : network)
    (parseString : value -> result value) (parsed : value)
    (entries : list value) :
  tsunami_parsed net parseString parsed ->
  entries_of parsed = Ok entries ->
  existsb (fun e => negb (normalizable e)) entries = true ->
  (exists err, tsunami net parseString = failure_reply Tsunami err)
  /\ (forall e, normalizable e = false
                <-> exists err, normalize_entry e = Throw err).
Proof.
  intros (st & c & Hnet & H2xx & Hp) He Hbad. split.
  - destruct (mapM_throws entries Hbad) as [err Herr].
    exists err. unfold tsunami. rewrite (axios_resolves _ _ Hnet H2xx).
    cbn [bind data]. rewrite Hp. cbn [bind]. rewrite He. cbn [bind].
    rewrite Herr. reflexivity.
  - intros e. split; [apply normalize_entry_throws|].
    intros [err Herr]. destruct (normalizable e) eqn:E; [|reflexivity].
    apply normalize_entry_ok_iff in E. destruct E as [t Ht]. congruence.
Qed.

Lemma unreadable_entry_fails_the_feed_witness :
  exists err,
    tsunami atom_feed (xml_gives (two_entry_feed advisory bare_link_entry))
    = failure_reply Tsunami err.
Proof.
  apply (proj1 (@unreadable_entry_fails_the_feed atom_feed
                  (xml_gives (two_entry_feed advisory bare_link_entry))
                  (two_entry_feed advisory bare_link_entry)
                  [advisory; bare_link_entry]
                  (ex_intro _ 200%Z
                     (ex_intro _ (Text "<feed>")
                        (conj eq_refl (conj eq_refl eq_refl))))
                  eq_refl eq_refl)).
Defined.

(** X4.  A parsed document that is [null] or [undefined] fails the route;
    one whose [feed] is falsy (an empty feed element), or whose [entry] is
    present and falsy (a single empty entry element), is served as the
    success envelope with an empty list. *)
Theorem empty_feed_cases (net : network)
    (parseString : value -> result value) (parsed : value) :
  tsunami_parsed net parseString parsed ->
  (object_coercible parsed = false ->
   exists err, tsunami net parseString = failure_reply Tsunami err)
  /\ (forall feed,
        get parsed "feed" = Ok feed -> truthy feed = false ->
        tsunami net parseString = tsunami_lists [])
  /\ (forall feed e,
        get parsed "feed" = Ok feed -> truthy feed = true ->
        get feed "entry" = Ok e -> truthy e = false ->
        tsunami net parseString = tsunami_lists []).
Proof.
  intros Hp. repeat split.
  - intros Hc. destruct Hp as (st & c & Hnet & H2xx & Hp).
    unfold tsunami. rewrite (axios_resolves _ _ Hnet H2xx).
    cbn [bind data]. rewrite Hp. cbn [bind].
    destruct parsed; try discriminate; eexists; reflexivity.
  - intros feed Hf Tf.
    apply (tsunami_reply Hp (entries := [])); [|reflexivity].
    unfold entries_of, and_then. rewrite Hf. cbn [bind]. rewrite Tf.
    cbn [bind]. rewrite Tf. reflexivity.
  - intros feed e Hf Tf He Te.
    apply (tsunami_reply Hp (entries := [])); [|reflexivity].
    rewrite (entries_of_feed _ Hf Tf He), Te. reflexivity.
Qed.

Lemma empty_feed_cases_witness :
  tsunami atom_feed (xml_gives (VObj [("feed", VStr EmptyString)]))
  = tsunami_lists [].
Proof.
  apply (proj1 (proj2 (@empty_feed_cases atom_feed
                  (xml_gives (VObj [("feed", VStr EmptyString)]))
                  (VObj [("feed", VStr EmptyString)])
                  (ex_intro _ 200%Z
                     (ex_intro _ (Text "<feed>")
                        (conj eq_refl (conj eq_refl eq_refl))))))
           (VStr EmptyString)); reflexivity.
Defined.

(** *** The volcano scan *)

Lemma Forall_picked (A B : Type) (pick : B -> option A) (P : A -> Prop)
    (bs : list B) :
  (forall b a, pick b = Some a -> P a) -> Forall P (picked pick bs).
Proof.
  intros H. induction bs as [|b bs IH]; cbn [picked]; [constructor|].
  destruct (pick b) as [a|] eqn:E; [|exact IH].
  constructor; [exact (H b a E) | exact IH].
Qed.

Lemma Forall_prefix (A : Type) (P : A -> Prop) (n : nat) (l : list A) :
  Forall P l -> Forall P (firstn n l).
Proof.
  intros H. rewrite <- (firstn_skipn n l) in H.
  apply Forall_app in H. exact (proj1 H).
Qed.

(** X1.  The table scan keeps, in document order and up to 8, one entry
    for each row that has a cell whose trimmed text is not empty: the
    name is that text of the first cell, the status the trimmed text of
    the second cell, or the empty string when the row has one cell.  Rows
    without cells (header rows) and rows with an empty first cell give
    nothing. *)
Theorem table_rows_scan (doc : list node) :
  table_strategy doc = firstn 8 (picked tr_pick (select_table_tr doc))
  /\ (forall tr, find "td" tr = [] -> tr_pick tr = None)
  /\ (forall tr c1 cells,
        find "td" tr = c1 :: cells -> trim (text_of c1) = EmptyString ->
        tr_pick tr = None)
  /\ (forall tr c1,
        find "td" tr = [c1] -> trim (text_of c1) <> EmptyString ->
        tr_pick tr = Some (eruption (trim (text_of c1)) EmptyString))
  /\ (forall tr c1 c2 cells,
        find "td" tr = c1 :: c2 :: cells ->
        trim (text_of c1) <> EmptyString ->
        tr_pick tr
        = Some (eruption (trim (text_of c1)) (trim (text_of c2)))).
Proof.
  split; [apply table_strategy_picks|]. repeat split.
  - intros tr H. unfold tr_pick. rewrite H. reflexivity.
  - intros tr c1 cells H Hname. unfold tr_pick. rewrite H.
    cbn [List.length Nat.leb text_at nth_error]. rewrite Hname. reflexivity.
  - intros tr c1 H Hname. unfold tr_pick. rewrite H.
    cbn [List.length Nat.leb text_at nth_error].
    apply String.eqb_neq in Hname. rewrite Hname. reflexivity.
  - intros tr c1 c2 cells H Hname. unfold tr_pick. rewrite H.
    cbn [List.length Nat.leb text_at nth_error].
    apply String.eqb_neq in Hname. rewrite Hname. reflexivity.
Qed.

Lemma table_rows_scan_witness :
  table_strategy eruptions_page
  = [eruption "Etna" "Ongoing"; eruption "Kilauea" EmptyString]
  /\ tr_pick (Element "tr" [Element "td" [TextNode "Kilauea"]])
     = Some (eruption "Kilauea" EmptyString).
Proof.
  split.
  - rewrite (proj1 (table_rows_scan eruptions_page)). reflexivity.
  - apply (proj1 (proj2 (proj2 (proj2 (table_rows_scan eruptions_page))))
             (Element "tr" [Element "td" [TextNode "Kilauea"]])
             (Element "td" [TextNode "Kilauea"]));
      [reflexivity | discriminate].
Defined.

Lemma tr_pick_named (tr : node) (e : value) :
  tr_pick tr = Some e ->
  exists name status, e = eruption name status /\ name <> EmptyString.
Proof.
  unfold tr_pick.
  destruct (1 <=? List.length (find "td" tr))%nat; [|discriminate].
  destruct (String.eqb (trim (text_at (find "td" tr) 0)) EmptyString) eqn:E;
    [discriminate|].
  intros H. inversion H. eexists; eexists. split; [reflexivity|].
  apply String.eqb_neq. exact E.
Qed.

Lemma li_pick_named (li : node) (e : value) :
  li_pick li = Some e ->
  exists name,
    e = eruption name EmptyString
    /\ (11 <= String.length name <= 60)%nat.
Proof.
  unfold li_pick.
  destruct (Nat.ltb_spec 10 (String.length (trim (text_of li)))) as [Hlong|];
    [|discriminate].
  intros H. inversion H. eexists. split; [reflexivity|].
  rewrite substring_length. lia.
Qed.

(** X2.  Every entry the volcano scan returns is a name with a status,
    and the name is never empty.  An entry that comes from the list items
    has a name of 11 to 60 code units and the empty status. *)
Theorem scraped_entries_are_named (doc : list node) :
  Forall (fun e => exists name status,
                     e = eruption name status /\ name <> EmptyString)
    (scrape doc)
  /\ (table_strategy doc = [] ->
      Forall (fun e => exists name,
                         e = eruption name EmptyString
                         /\ (11 <= String.length name <= 60)%nat)
        (scrape doc)).
Proof.
  assert (table_strategy doc = [] ->
          Forall (fun e => exists name,
                             e = eruption name EmptyString
                             /\ (11 <= String.length name <= 60)%nat)
            (scrape doc)) as Hfallback.
  { intros Ht. unfold scrape. rewrite Ht. cbn [List.length Nat.eqb].
    rewrite fallback_strategy_picks. apply Forall_prefix, Forall_prefix.
    apply Forall_picked. exact li_pick_named. }
  split; [|exact Hfallback].
  destruct (table_strategy doc) as [|x xs] eqn:Ht.
  - eapply Forall_impl; [|exact (Hfallback eq_refl)].
    intros e (name & -> & Hlen). exists name, EmptyString.
    split; [reflexivity|]. intros ->. simpl in Hlen. lia.
  - unfold scrape. rewrite Ht. cbn [List.length Nat.eqb]. rewrite <- Ht.
    rewrite table_strategy_picks. apply Forall_prefix, Forall_prefix.
    apply Forall_picked. exact tr_pick_named.
Qed.

Lemma scraped_entries_are_named_witness :
  Forall (fun e => exists name,
                     e = eruption name EmptyString
                     /\ (11 <= String.length name <= 60)%nat)
    (scrape list_page).
Proof.
  apply (proj2 (scraped_entries_are_named list_page)). reflexivity.
Defined.

End ServerExtras.

(* ===================================================================== *)
(** ** Further properties of the renderer                                 *)
(* ===================================================================== *)

Module DashboardFacts.

Import JS Server App Contract Samples Dashboard Shapes MoreSamples.
Import JSFacts ServerFacts AppFacts.
Local Open Scope string_scope.

(** *** What the page reads *)

Lemma fetch_failed (rt : route) (s : served) :
  failed rt s -> fetchJson (Some s) = VNull.
Proof. intros [Hst _]. unfold fetchJson. rewrite Hst. reflexivity. Qed.

Lemma fetch_succeeded (rt : route) (s : served) :
  succeeded rt s ->
  exists d,
    fetchJson (Some s)
    = VObj [("ok", VBool true); ("source", VStr (documented_source rt));
            ("data", of_json d)].
Proof.
  intros [Hst [d Hb]]. exists d. unfold fetchJson. rewrite Hst, Hb.
  reflexivity.
Qed.

(** X8.  What [fetchJson] hands to the page for a feed route is [null]
    exactly when the route failed; otherwise it is the success envelope
    with [ok], [source] and [data].  A fetch that is rejected gives [null]
    as well. *)
Theorem page_reads_null_iff_failed (net : network)
    (parseString : value -> result value)
    (load : value -> result (list node)) (rt : route) :
  (fetchJson (Some (handle net parseString load rt)) = VNull
   <-> failed rt (handle net parseString load rt))
  /\ (fetchJson (Some (handle net parseString load rt)) <> VNull ->
      exists d,
        fetchJson (Some (handle net parseString load rt))
        = VObj [("ok", VBool true); ("source", VStr (documented_source rt));
                ("data", of_json d)])
  /\ fetchJson None = VNull.
Proof.
  destruct (handle_shape net parseString load rt) as [Hf|Hs].
  - pose proof (fetch_failed Hf) as Hnull.
    split; [split; intros _; assumption|].
    split; [|reflexivity].
    intros H. exfalso. exact (H Hnull).
  - destruct (fetch_succeeded Hs) as [d Hd].
    split; [split|split; [|reflexivity]].
    + rewrite Hd. discriminate.
    + intros [Hst _]. destruct Hs as [Hst' _]. rewrite Hst in Hst'.
      discriminate.
    + intros _. exists d. exact Hd.
Qed.

Lemma page_reads_null_iff_failed_witness :
  fetchJson (Some (handle offline strict_xml no_document Volcanoes)) = VNull.
Proof.
  apply (proj1 (page_reads_null_iff_failed offline strict_xml no_document
                  Volcanoes)).
  split; reflexivity.
Defined.

Lemma text_body_served (net : network) (rt : route) (st : Z) (raw : string)
    (parseString : value -> result value)
    (load : value -> result (list node)) :
  rt = Earthquakes \/ rt = Floods ->
  net (request_of rt) = Reply st (Text raw) -> is_2xx st = true ->
  fetchJson (Some (handle net parseString load rt))
  = VObj [("ok", VBool true); ("source", VStr (documented_source rt));
          ("data", VStr raw)].
Proof.
  intros [-> | ->] Hnet H2xx; simpl in *; unfold earthquakes, floods;
    rewrite (axios_resolves _ _ Hnet H2xx); reflexivity.
Qed.

(** X9.  When the upstream of the earthquake or of the flood route answers
    2xx with a body that is not JSON, the route serves it as a success,
    and the page, which finds neither a feature array nor a report list in
    a string, shows the placeholder of that feed without an exception. *)
Theorem text_body_shows_placeholder (coerce : value -> result number)
    (circleMarker : value -> value -> result unit)
    (net : network) (parseString : value -> result value)
    (load : value -> result (list node)) (st : Z) (raw : string) :
  is_2xx st = true ->
  (net earthquakes_request = Reply st (Text raw) ->
   status (earthquakes net) = 200%Z
   /\ render_quakes coerce circleMarker
        (fetchJson (Some (handle net parseString load Earthquakes)))
      = Ok QuakesUnavailable)
  /\ (net floods_request = Reply st (Text raw) ->
      status (floods net) = 200%Z
      /\ render_floods
           (fetchJson (Some (handle net parseString load Floods)))
         = Ok FloodsUnavailable).
Proof.
  intros H2xx. split; intros Hnet.
  - split.
    + unfold earthquakes. rewrite (axios_resolves _ _ Hnet H2xx). reflexivity.
    + rewrite (@text_body_served net Earthquakes st raw parseString load
                 (or_introl eq_refl) Hnet H2xx).
      unfold render_quakes, and_then.
      cbn [truthy get lookup String.eqb Ascii.eqb Bool.eqb bind
             documented_source].
      destruct (negb (String.eqb raw EmptyString)) eqn:E;
        cbn [bind truthy isArray]; [reflexivity|].
      cbn [truthy]. rewrite E. reflexivity.
  - split.
    + unfold floods. rewrite (axios_resolves _ _ Hnet H2xx). reflexivity.
    + rewrite (@text_body_served net Floods st raw parseString load
                 (or_intror eq_refl) Hnet H2xx).
      unfold render_floods, and_then.
      cbn [truthy get lookup String.eqb Ascii.eqb Bool.eqb bind
             documented_source].
      destruct (negb (String.eqb raw EmptyString)) eqn:E;
        cbn [bind truthy]; [reflexivity|].
      cbn [truthy]. rewrite E. reflexivity.
Qed.

Lemma text_body_shows_placeholder_witness :
  status (earthquakes garbled) = 200%Z
  /\ render_quakes no_coercion numeric_markers
       (fetchJson (Some (handle garbled strict_xml no_document Earthquakes)))
     = Ok QuakesUnavailable.
Proof.
  apply (proj1 (@text_body_shows_placeholder no_coercion numeric_markers
                  garbled strict_xml no_document 200%Z "<feed><entry>"
                  eq_refl)).
  reflexivity.
Defined.

(** *** The flood list *)

(** X10.  A report without fields, or whose title is missing or empty, is
    listed under the title 'Report'; otherwise under its own title.  When
    the URL field is a string rather than a sequence, the entry links to
    the first code unit of that string.  A title that does not convert to
    a string (an object with a [toString] property of its own) cannot be
    listed: the entry throws. *)
Theorem flood_entry_edges (r fields : value) :
  get r "fields" = Ok fields ->
  (truthy fields = false -> flood_title r = Ok (VStr "Report"))
  /\ (forall t,
        truthy fields = true -> get fields "title" = Ok t ->
        flood_title r = Ok (if truthy t then t else VStr "Report"))
  /\ (forall c rest title,
        get fields "url" = Ok (VStr (String c rest)) ->
        flood_title r = Ok title ->
        convertible title = true ->
        flood_entry r = Ok (Anchor (VStr (String c EmptyString)) title))
  /\ (forall title,
        flood_title r = Ok title ->
        convertible title = false ->
        exists err, flood_entry r = Throw err).
Proof.
  intros Hf. split; [|split; [|split]].
  - intros Tf. unfold flood_title, and_then. rewrite Hf. cbn [bind].
    rewrite Tf. cbn [bind]. rewrite Tf. reflexivity.
  - intros t Tf Ht. unfold flood_title, and_then. rewrite Hf. cbn [bind].
    rewrite Tf, Ht. cbn [bind]. destruct (truthy t); reflexivity.
  - intros c rest title Hu Ht Kt.
    assert (truthy fields = true) as Tf.
    { destruct fields; simpl in Hu; try discriminate; reflexivity. }
    unfold flood_entry. rewrite Ht. cbn [bind].
    unfold flood_url, and_then. rewrite Hf. cbn [bind]. rewrite Tf, Hu.
    cbn [bind truthy index char_at String.get].
    cbn [String.eqb negb ToPrimitive convertible bind].
    rewrite (ToPrimitive_ok title Kt). reflexivity.
  - intros title Ht Kt. unfold flood_entry. rewrite Ht. cbn [bind].
    destruct (flood_url r) as [url|err]; cbn [bind];
      [|eexists; reflexivity].
    unfold ToPrimitive. rewrite Kt.
    destruct (truthy url); [destruct (convertible url)|]; cbn [bind];
      eexists; reflexivity.
Qed.

Lemma flood_entry_edges_witness :
  flood_entry string_url_report
  = Ok (Anchor (VStr "h") (VStr "Flash floods"))
  /\ exists err, flood_entry stringless_report = Throw err.
Proof.
  split.
  - apply (proj1 (proj2 (proj2 (@flood_entry_edges string_url_report
                           (VObj [("title", VStr "Flash floods");
                                  ("url", VStr "https://reliefweb.int/report/5")])
                           eq_refl)))
             "h"%char "ttps://reliefweb.int/report/5" (VStr "Flash floods"));
      reflexivity.
  - apply (proj2 (proj2 (proj2 (@flood_entry_edges stringless_report
                           (VObj [("title",
                                   VObj [("toString", VStr "Flood")])])
                           eq_refl)))
             (VObj [("toString", VStr "Flood")])); reflexivity.
Defined.

(** *** Markers and clicks *)

Lemma max0_spec (q : Q) :
  (0 <= max0 q)%Q /\ (q <= max0 q)%Q
  /\ ((q <= 0)%Q -> (max0 q == 0)%Q).
Proof.
  unfold max0. destruct (Qle_bool 0 q) eqn:E.
  - apply Qle_bool_iff in E. split; [exact E|]. split; [apply Qle_refl|].
    intros H. apply Qle_antisym; assumption.
  - assert (q < 0)%Q as Hneg.
    { apply Qnot_le_lt. intros H. apply Qle_bool_iff in H. congruence. }
    split; [apply Qle_refl|]. split; [apply Qlt_le_weak; exact Hneg|].
    intros _. reflexivity.
Qed.

Lemma max0_monotone (p q : Q) : (p <= q)%Q -> (max0 p <= max0 q)%Q.
Proof.
  intros H. destruct (max0_spec q) as (Hq0 & Hq & _).
  unfold max0 at 1. destruct (Qle_bool 0 p).
  - eapply Qle_trans; eassumption.
  - exact Hq0.
Qed.

Lemma four_plus_max0 (q : Q) : (4 <= 4 + max0 q)%Q.
Proof.
  destruct (max0_spec q) as (H0 & _ & _).
  rewrite <- (Qplus_0_r 4) at 1. apply Qplus_le_r. exact H0.
Qed.

Lemma marker_radius_monotone (p q : Q) :
  (p <= q)%Q -> (marker_radius p <= marker_radius q)%Q.
Proof.
  intros H. unfold marker_radius. apply nearest_double_monotone.
  - eapply Qle_trans; [|apply four_plus_max0]. discriminate.
  - apply Qplus_le_r. apply max0_monotone. exact H.
Qed.

Lemma marker_radius_floor (q : Q) :
  (4 <= marker_radius q)%Q /\ ((q <= 0)%Q -> (marker_radius q == 4)%Q).
Proof.
  assert (nearest_double 4 = 4%Q) as E4 by (vm_compute; reflexivity).
  assert (1 <= 4)%Q as H14 by discriminate.
  assert (4 <= marker_radius q)%Q as Hlow.
  { rewrite <- E4 at 1. unfold marker_radius.
    apply nearest_double_monotone; [exact H14 | apply four_plus_max0]. }
  split; [exact Hlow|].
  intros Hq. apply Qle_antisym; [|exact Hlow].
  rewrite <- E4 at 1. unfold marker_radius.
  apply nearest_double_monotone.
  - eapply Qle_trans; [exact H14 | apply four_plus_max0].
  - destruct (max0_spec q) as (_ & _ & Hz). rewrite (Hz Hq).
    rewrite Qplus_0_r. apply Qle_refl.
Qed.

(** X11.  The radius of a marker is the double [4 + Math.max(0, mag)] of
    the magnitude shown: it is never less than 4, it is 4 for every
    magnitude up to zero, and a greater magnitude never gets a smaller
    marker.  The sum is rounded: for the double of 2.11 it is
    6.109999999999999, below the double of 6.11. *)
Theorem marker_radius_grows (circleMarker : value -> value -> result unit)
    (f f' : value) (li li' : list_item) (mk mk' : marker) :
  render_feature circleMarker f = Ok (li, mk) ->
  render_feature circleMarker f' = Ok (li', mk') ->
  (4 <= radius mk)%Q
  /\ ((shown_mag li <= 0)%Q -> (radius mk == 4)%Q)
  /\ ((shown_mag li <= shown_mag li')%Q -> (radius mk <= radius mk')%Q)
  /\ (marker_radius (nearest_double (211 # 100))
      < nearest_double (611 # 100))%Q.
Proof.
  intros H H'.
  destruct (render_feature_inv circleMarker f H)
    as (_ & _ & _ & _ & _ & _ & _ & _ & Hr).
  destruct (render_feature_inv circleMarker f' H')
    as (_ & _ & _ & _ & _ & _ & _ & _ & Hr').
  rewrite Hr, Hr'.
  destruct (marker_radius_floor (shown_mag li)) as [Hlow Hzero].
  split; [exact Hlow|]. split; [exact Hzero|].
  split; [apply marker_radius_monotone|].
  vm_compute. reflexivity.
Qed.

Lemma marker_radius_grows_witness :
  exists li mk li' mk',
    render_feature numeric_markers (quake (21 # 10) "California")
    = Ok (li, mk)
    /\ render_feature numeric_markers (quake (68 # 10) "Chile")
       = Ok (li', mk')
    /\ (radius mk <= radius mk')%Q.
Proof.
  eexists. eexists. eexists. eexists.
  split; [reflexivity|]. split; [reflexivity|].
  apply (proj1 (proj2 (proj2
           (@marker_radius_grows numeric_markers
              (quake (21 # 10) "California") (quake (68 # 10) "Chile")
              _ _ _ _ eq_refl eq_refl)))).
  vm_compute. discriminate.
Defined.

Lemma render_feature_placed (circleMarker : value -> value -> result unit)
    (f : value) (li : list_item) (mk : marker) :
  render_feature circleMarker f = Ok (li, mk) ->
  exists geometry coordinates,
    get f "geometry" = Ok geometry
    /\ get geometry "coordinates" = Ok coordinates
    /\ index coordinates 1 = Ok (lat mk)
    /\ index coordinates 0 = Ok (lon mk)
    /\ circleMarker (lat mk) (lon mk) = Ok tt
    /\ target li = f.
Proof.
  unfold render_feature. intros H.
  do 9 bind_inv H.
  apply bind_ok in H. destruct H as (g & Hg & H).
  apply bind_ok in H. destruct H as (c & Hc & H).
  apply bind_ok in H. destruct H as (lat1 & Hlat & H).
  apply bind_ok in H. destruct H as (g' & Hg' & H).
  apply bind_ok in H. destruct H as (c' & Hc' & H).
  apply bind_ok in H. destruct H as (lon0 & Hlon & H).
  apply bind_ok in H. destruct H as (u & Hcm & H).
  do 3 bind_inv H.
  inversion H; subst li mk; clear H. cbn [lat lon target].
  rewrite Hg in Hg'. inversion Hg'; subst g'.
  rewrite Hc in Hc'. inversion Hc'; subst c'.
  destruct u. exists g, c. repeat split; assumption.
Qed.

(** X13.  For a rendered feature whose coordinates are an array, a click
    on its list entry asks for the map view, at zoom 6, on the very
    position its marker was placed at: latitude from index 1, longitude
    from index 0. *)
Theorem click_centres_on_marker
    (circleMarker : value -> value -> result unit)
    (f : value) (li : list_item) (mk : marker) :
  render_feature circleMarker f = Ok (li, mk) ->
  forall geometry xs,
    get f "geometry" = Ok geometry ->
    get geometry "coordinates" = Ok (VArr xs) ->
    on_click li
    = Ok {| center_lat := lat mk; center_lon := lon mk; zoom := 6 |}
    /\ lat mk = nth 1 xs VUndef /\ lon mk = nth 0 xs VUndef
    /\ circleMarker (lat mk) (lon mk) = Ok tt.
Proof.
  intros H.
  destruct (render_feature_placed circleMarker f H)
    as (g & c & Hg & Hc & Hlat & Hlon & Hcm & Ht).
  intros geometry xs Hg' Hc'. rewrite Hg in Hg'. inversion Hg'; subst g.
  rewrite Hc in Hc'. inversion Hc'; subst c.
  cbn [index] in Hlat, Hlon.
  injection Hlat as Elat. injection Hlon as Elon.
  rewrite <- Elat, <- Elon in Hcm. rewrite <- Elat, <- Elon.
  unfold on_click. rewrite Ht, Hg. cbn [bind]. rewrite Hc.
  repeat split; try reflexivity. exact Hcm.
Qed.

Lemma click_centres_on_marker_witness :
  exists li mk,
    render_feature numeric_markers (quake (52 # 10) "Alaska") = Ok (li, mk)
    /\ on_click li
       = Ok {| center_lat := VNum 38; center_lon := VNum (-122); zoom := 6 |}.
Proof.
  eexists. eexists. split; [reflexivity|].
  apply (@click_centres_on_marker numeric_markers
           (quake (52 # 10) "Alaska") _ _ eq_refl
           (VObj [("type", VStr "Point");
                  ("coordinates", VArr [VNum (-122); VNum 38; VNum 10])])
           [VNum (-122); VNum 38; VNum 10]); reflexivity.
Defined.

(** *** Stability of the order *)

Lemma has_mag_exclusive (q : Q) (x y : value) :
  positive (Num (mag_number y - mag_number x)) = true ->
  has_mag q x = true -> has_mag q y = true -> False.
Proof.
  unfold has_mag. intros Hlt Hx Hy.
  apply positive_lt in Hlt. apply Qeq_bool_iff in Hx, Hy.
  rewrite Hx, Hy in Hlt. exact (Qlt_irrefl _ Hlt).
Qed.

Lemma insert_by_mag_stable (q : Q) (x : value) (ys : list value) :
  filter (has_mag q) (insert_by_mag x ys) = filter (has_mag q) (x :: ys).
Proof.
  induction ys as [|y ys IH]; cbn [insert_by_mag]; [reflexivity|].
  destruct (positive (Num (mag_number y - mag_number x))) eqn:E;
    [|reflexivity].
  cbn [filter] in *. rewrite IH.
  destruct (has_mag q y) eqn:Hy; [|reflexivity].
  destruct (has_mag q x) eqn:Hx; [|reflexivity].
  exfalso. exact (has_mag_exclusive q x y E Hx Hy).
Qed.

Lemma sort_by_mag_stable (q : Q) (fs : list value) :
  filter (has_mag q) (sort_by_mag fs) = filter (has_mag q) fs.
Proof.
  induction fs as [|x xs IH]; cbn [sort_by_mag]; [reflexivity|].
  rewrite insert_by_mag_stable. cbn [filter]. rewrite IH. reflexivity.
Qed.

(** X12.  The sort of the feature list is stable: on features whose
    magnitude is a number or [null] the comparator never throws, and in
    the sorted list the features of any one magnitude stand in the order
    the feed gave them. *)
Theorem equal_magnitudes_keep_feed_order (coerce : value -> result number)
    (fs : list value) :
  forallb sortable fs = true ->
  exists sorted,
    sort (by_mag_desc coerce) fs = Ok sorted
    /\ forall q, filter (has_mag q) sorted = filter (has_mag q) fs.
Proof.
  intros H. rewrite forallb_forall in H. apply Forall_forall in H.
  exists (sort_by_mag fs). split; [apply sort_pure; exact H|].
  intros q. apply sort_by_mag_stable.
Qed.

Lemma equal_magnitudes_keep_feed_order_witness :
  exists sorted,
    sort (by_mag_desc no_coercion)
      [unlocated_quake (21 # 10) "California"; quake (52 # 10) "Alaska";
       unlocated_quake (21 # 10) "Nevada"] = Ok sorted
    /\ forall q,
         filter (has_mag q) sorted
         = filter (has_mag q)
             [unlocated_quake (21 # 10) "California";
              quake (52 # 10) "Alaska";
              unlocated_quake (21 # 10) "Nevada"].
Proof.
  apply equal_magnitudes_keep_feed_order. reflexivity.
Defined.

(** *** The tsunami block on what the route serves *)

Lemma normalize_entry_shape (e t : value) :
  normalize_entry e = Ok t ->
  exists id title updated summary link,
    get e "title" = Ok title
    /\ t = VObj [("id", id); ("title", title); ("updated", updated);
                 ("summary", summary); ("link", link)].
Proof.
  unfold normalize_entry. intros H.
  bind_inv H. bind_inv H. bind_inv H. bind_inv H. bind_inv H.
  inversion H. exists x, x0, x1, x2, x3. split; [assumption | reflexivity].
Qed.

Lemma mapM_entries (es out : list value) :
  mapM normalize_entry es = Ok out -> Forall is_entry out.
Proof.
  revert out. induction es as [|e es IH]; cbn [mapM]; intros out H.
  - inversion H. constructor.
  - bind_inv H. bind_inv H. inversion H.
    constructor; [|apply IH; assumption].
    destruct (normalize_entry_shape e Hx)
      as (id & title & updated & summary & link & _ & ->).
    exists id, title, updated, summary, link. reflexivity.
Qed.

Lemma tsunami_served (net : network) (parseString : value -> result value) :
  failed Tsunami (tsunami net parseString)
  \/ exists out,
       tsunami net parseString = tsunami_lists out /\ Forall is_entry out.
Proof.
  unfold tsunami, axios_get.
  destruct (net tsunami_request) as [why| |st c];
    try (left; split; reflexivity).
  destruct ((200 <=? st)%Z && (st <? 300)%Z); cbn [bind try_catch];
    try (left; split; reflexivity).
  cbn [data].
  destruct (parseString (transformResponse c)) as [parsed|]; cbn [bind];
    try (left; split; reflexivity).
  destruct (entries_of parsed) as [entries|]; cbn [bind];
    try (left; split; reflexivity).
  destruct (mapM normalize_entry entries) as [out|] eqn:Hm; cbn [bind];
    try (left; split; reflexivity).
  right. exists out. split; [reflexivity | exact (mapM_entries _ Hm)].
Qed.

Lemma fetch_tsunami_lists (out : list value) :
  fetchJson (Some (tsunami_lists out))
  = VObj [("ok", VBool true); ("source", VStr "tsunami.gov");
          ("data", VArr (map of_json (map item_json out)))].
Proof. reflexivity. Qed.

(** The title of a served entry as the page reads it: what JSON keeps of
    it. *)
Lemma entry_title_read (id title updated summary link : value) :
  get (of_json (item_json (VObj [("id", id); ("title", title);
                                 ("updated", updated);
                                 ("summary", summary); ("link", link)])))
    "title"
  = Ok (match stringify title with
        | Some j => of_json j
        | None => VUndef
        end).
Proof.
  unfold item_json. cbn [stringify flat_map app].
  destruct (stringify id), (stringify title), (stringify updated),
    (stringify summary), (stringify link); reflexivity.
Qed.

Lemma entry_is_object (t : value) :
  is_entry t -> exists ps, of_json (item_json t) = VObj ps.
Proof.
  intros (id & title & updated & summary & link & ->).
  unfold item_json. cbn [stringify]. eexists; reflexivity.
Qed.

Section TsunamiBlock.

Variable coerce : value -> result number.

Lemma render_tsunami_none :
  render_tsunami coerce (fetchJson (Some (tsunami_lists []))) = Ok NoTsunami.
Proof. reflexivity. Qed.

Lemma render_tsunami_first (t : value) (out : list value) :
  render_tsunami coerce (fetchJson (Some (tsunami_lists (t :: out))))
  = (title <- get (of_json (item_json t)) "title" ;;
     text <- ToPrimitive (or_else title (VStr "Latest tsunami message")) ;;
     Ok (TsunamiTitle text)).
Proof. reflexivity. Qed.

(** X14.  On what the tsunami route serves, the tsunami block shows the
    placeholder when the route failed or served no entry; otherwise it
    shows the title of the first entry as JSON carried it, and 'Latest
    tsunami message' when that title is missing or empty.  It throws
    exactly when that title does not convert to a string: an object with
    a [toString] property of its own, which the feed can carry. *)
Theorem tsunami_block_on_served_feed (net : network)
    (parseString : value -> result value) :
  (failed Tsunami (tsunami net parseString) ->
   render_tsunami coerce (fetchJson (Some (tsunami net parseString)))
   = Ok NoTsunami)
  /\ (forall parsed entries out,
        tsunami_parsed net parseString parsed ->
        entries_of parsed = Ok entries ->
        mapM normalize_entry entries = Ok out ->
        match out with
        | [] =>
            render_tsunami coerce
              (fetchJson (Some (tsunami net parseString)))
            = Ok NoTsunami
        | t :: _ =>
            forall title,
              get t "title" = Ok title ->
              let shown :=
                or_else (match stringify title with
                         | Some j => of_json j
                         | None => VUndef
                         end)
                  (VStr "Latest tsunami message") in
              (convertible shown = true ->
               render_tsunami coerce
                 (fetchJson (Some (tsunami net parseString)))
               = Ok (TsunamiTitle shown))
              /\ (convertible shown = false ->
                  exists err,
                    render_tsunami coerce
                      (fetchJson (Some (tsunami net parseString)))
                    = Throw err)
        end).
Proof.
  split.
  - intros Hf. rewrite (fetch_failed Hf). reflexivity.
  - intros parsed entries out Hp He Hm.
    rewrite (tsunami_reply Hp He Hm).
    pose proof (mapM_entries _ Hm) as Hall.
    destruct Hall as [|t out Ht _]; [apply render_tsunami_none|].
    intros title Htitle shown. rewrite render_tsunami_first.
    destruct Ht as (id & title' & updated & summary & link & ->).
    cbn in Htitle. inversion Htitle; subst title'.
    rewrite entry_title_read. cbn [bind]. fold shown.
    unfold ToPrimitive. split; intros ->; [reflexivity|].
    eexists; reflexivity.
Qed.

End TsunamiBlock.

Lemma tsunami_block_on_served_feed_witness :
  render_tsunami no_coercion
    (fetchJson (Some (tsunami atom_feed
                        (xml_gives (one_entry_feed advisory)))))
  = Ok (TsunamiTitle (VStr "Tsunami Advisory"))
  /\ exists err,
       render_tsunami no_coercion
         (fetchJson (Some (tsunami atom_feed
                             (xml_gives
                                (one_entry_feed stringless_title_entry)))))
       = Throw err.
Proof.
  split.
  - apply (proj1 (proj2 (tsunami_block_on_served_feed no_coercion atom_feed
                           (xml_gives (one_entry_feed advisory)))
                    (one_entry_feed advisory) [advisory]
                    [VObj [("id", VStr "urn:uuid:1");
                           ("title", VStr "Tsunami Advisory");
                           ("updated", VStr "2024-05-01T09:00:00Z");
                           ("summary", VStr "Magnitude 7.1, no threat");
                           ("link", VStr "https://www.tsunami.gov/events/1")]]
                    (ex_intro _ 200%Z
                       (ex_intro _ (Text "<feed>")
                          (conj eq_refl (conj eq_refl eq_refl))))
                    eq_refl eq_refl (VStr "Tsunami Advisory") eq_refl)).
    reflexivity.
  - apply (proj2 (proj2 (tsunami_block_on_served_feed no_coercion atom_feed
                           (xml_gives
                              (one_entry_feed stringless_title_entry)))
                    (one_entry_feed stringless_title_entry)
                    [stringless_title_entry]
                    [VObj [("id", VStr "urn:uuid:3");
                           ("title", VObj [("toString", VStr "Tsunami Watch")]);
                           ("updated", VStr "2024-05-01T11:00:00Z");
                           ("summary", VStr EmptyString);
                           ("link", VStr EmptyString)]]
                    (ex_intro _ 200%Z
                       (ex_intro _ (Text "<feed>")
                          (conj eq_refl (conj eq_refl eq_refl))))
                    eq_refl eq_refl
                    (VObj [("toString", VStr "Tsunami Watch")]) eq_refl)).
    reflexivity.
Defined.

(** *** The volcano block on what the route serves *)

Lemma scrape_eruptions (doc : list node) : Forall is_eruption (scrape doc).
Proof.
  unfold scrape.
  destruct (table_strategy doc) as [|x xs] eqn:Ht; cbn [List.length Nat.eqb].
  - rewrite fallback_strategy_picks. apply ServerExtras.Forall_prefix.
    apply ServerExtras.Forall_prefix. apply ServerExtras.Forall_picked.
    intros li e H. destruct (ServerExtras.li_pick_named li H) as (n & -> & _).
    exists n, EmptyString. reflexivity.
  - rewrite <- Ht, table_strategy_picks. apply ServerExtras.Forall_prefix.
    apply ServerExtras.Forall_prefix. apply ServerExtras.Forall_picked.
    intros tr e H.
    destruct (ServerExtras.tr_pick_named tr H) as (n & s & -> & _).
    exists n, s. reflexivity.
Qed.

Lemma eruptions_round_trip (es : list value) :
  Forall is_eruption es -> map of_json (map item_json es) = es.
Proof.
  induction 1 as [|e es (n & s & ->) _ IH]; cbn [map]; [reflexivity|].
  rewrite IH. reflexivity.
Qed.

Lemma volcano_line_eruption (n s : string) :
  volcano_line (eruption n s)
  = Ok {| vname := VStr n;
          vstatus := if String.eqb s EmptyString then None
                     else Some (VStr s) |}.
Proof.
  unfold volcano_line, eruption.
  cbn [get lookup String.eqb Ascii.eqb Bool.eqb bind ToPrimitive
         convertible truthy].
  destruct (String.eqb s EmptyString); reflexivity.
Qed.

Lemma volcano_lines (es : list value) :
  Forall is_eruption es ->
  exists items, mapM volcano_line es = Ok items /\ Forall2 line_of es items.
Proof.
  induction 1 as [|e es (n & s & ->) _ [items [Hi Hall]]]; cbn [mapM].
  - exists []. split; [reflexivity | constructor].
  - rewrite volcano_line_eruption, Hi. cbn [bind].
    eexists. split; [reflexivity|].
    constructor; [|exact Hall].
    exists n, s. repeat split; reflexivity.
Qed.

Lemma volcanoes_served (net : network) (load : value -> result (list node)) :
  failed Volcanoes (volcanoes net load)
  \/ exists doc,
       fetchJson (Some (volcanoes net load))
       = VObj [("ok", VBool true); ("source", VStr "gvp");
               ("data", VArr (scrape doc))].
Proof.
  unfold volcanoes, axios_get.
  destruct (net volcanoes_request) as [why| |st c];
    try (left; split; reflexivity).
  destruct ((200 <=? st)%Z && (st <? 300)%Z); cbn [bind try_catch];
    try (left; split; reflexivity).
  cbn [data].
  destruct (load (transformResponse c)) as [doc|]; cbn [bind];
    try (left; split; reflexivity).
  right. exists doc.
  rewrite <- (eruptions_round_trip (scrape_eruptions doc)) at 2.
  reflexivity.
Qed.

Lemma render_volcanoes_scraped (es : list value) :
  Forall is_eruption es ->
  exists items,
    render_volcanoes
      (VObj [("ok", VBool true); ("source", VStr "gvp"); ("data", VArr es)])
    = Ok (VolcanoList items)
    /\ Forall2 line_of (firstn 6 es) items.
Proof.
  intros H.
  destruct (volcano_lines (ServerExtras.Forall_prefix 6 H))
    as [items [Hi Hall]].
  exists items. split; [|exact Hall].
  unfold render_volcanoes, and_then.
  cbn [truthy get lookup String.eqb Ascii.eqb Bool.eqb bind].
  rewrite Hi. reflexivity.
Qed.

Lemma volcano_block_total (net : network)
    (load : value -> result (list node)) :
  exists panel,
    render_volcanoes (fetchJson (Some (volcanoes net load))) = Ok panel.
Proof.
  destruct (volcanoes_served net load) as [Hf|[doc ->]].
  - rewrite (fetch_failed Hf). eexists; reflexivity.
  - destruct (render_volcanoes_scraped (scrape_eruptions doc))
      as [items [Hi _]].
    eexists; exact Hi.
Qed.

(** X15.  On what the volcano route serves the volcano block never
    throws.  After a failure it shows the placeholder.  After a success it
    lists the first 6 of the served entries, in order, each as its name
    followed by its status when that is not empty; so of up to 8 served
    entries at most 6 are shown, and an empty list shows no placeholder. *)
Theorem volcano_block_on_served_page (net : network)
    (load : value -> result (list node)) :
  (exists panel,
      render_volcanoes (fetchJson (Some (volcanoes net load))) = Ok panel)
  /\ (failed Volcanoes (volcanoes net load) ->
      render_volcanoes (fetchJson (Some (volcanoes net load)))
      = Ok VolcanoesUnavailable)
  /\ (forall st c doc,
        net volcanoes_request = Reply st c -> is_2xx st = true ->
        load (transformResponse c) = Ok doc ->
        exists items,
          render_volcanoes (fetchJson (Some (volcanoes net load)))
          = Ok (VolcanoList items)
          /\ Forall2 line_of (firstn 6 (scrape doc)) items
          /\ List.length items = Nat.min 6 (List.length (scrape doc))).
Proof.
  split; [apply volcano_block_total|]. split.
  - intros Hf. rewrite (fetch_failed Hf). reflexivity.
  - intros st c doc Hnet H2xx Hload.
    assert (fetchJson (Some (volcanoes net load))
            = VObj [("ok", VBool true); ("source", VStr "gvp");
                    ("data", VArr (scrape doc))]) as ->.
    { unfold volcanoes. rewrite (axios_resolves _ _ Hnet H2xx).
      cbn [bind data]. rewrite Hload. cbn [bind try_catch].
      rewrite <- (eruptions_round_trip (scrape_eruptions doc)) at 2.
      reflexivity. }
    destruct (render_volcanoes_scraped (scrape_eruptions doc))
      as [items [Hi Hall]].
    exists items. split; [exact Hi|]. split; [exact Hall|].
    rewrite <- (Forall2_length Hall). apply length_firstn.
Qed.

Lemma volcano_block_on_served_page_witness :
  exists items,
    render_volcanoes
      (fetchJson (Some (volcanoes html_page (loads eruptions_page))))
    = Ok (VolcanoList items)
    /\ Forall2 line_of (firstn 6 (scrape eruptions_page)) items
    /\ List.length items = 2%nat.
Proof.
  apply (proj2 (proj2 (volcano_block_on_served_page html_page
                         (loads eruptions_page)))
           200%Z (Text "<html>") eruptions_page); reflexivity.
Defined.

(** *** [init] as a whole *)

Lemma raised_fails (net : network) (parseString : value -> result value)
    (load : value -> result (list node)) (rt : route) :
  raised rt parseString load (net (request_of rt)) = true ->
  failed rt (handle net parseString load rt).
Proof.
  unfold raised, failed.
  destruct rt; simpl; unfold earthquakes, tsunami, volcanoes, floods;
    unfold axios_get, is_2xx;
    match goal with |- context [net ?rq] => destruct (net rq) as [why| |st c] end;
    simpl; intros H; try (split; reflexivity);
    destruct ((200 <=? st)%Z && (st <? 300)%Z); simpl in *;
    try (split; reflexivity); try discriminate.
  - destruct (parseString (transformResponse c)); simpl in *;
      [discriminate | split; reflexivity].
  - destruct (load (transformResponse c)); simpl in *;
      [discriminate | split; reflexivity].
Qed.

Section Init.

Variable coerce : value -> result number.
Variable circleMarker : value -> value -> result unit.

Lemma init_without_feeds (backend : string -> option served) :
  (forall rt, fetchJson (backend (path rt)) = VNull) ->
  init coerce circleMarker backend = all_unavailable.
Proof.
  intros H. unfold init.
  pose proof (H Earthquakes) as He. pose proof (H Tsunami) as Ht.
  pose proof (H Volcanoes) as Hv. pose proof (H Floods) as Hf.
  cbn [path] in He, Ht, Hv, Hf. rewrite He, Ht, Hv, Hf. reflexivity.
Qed.

(** X16.  When every fetch of the page comes back [null], [init] runs to
    its end without an exception: each of the four regions shows its
    placeholder and the emergency button is wired.  That is the page when
    every route of this backend observes a failure of its upstream. *)
Theorem all_feeds_down (net : network)
    (parseString : value -> result value)
    (load : value -> result (list node)) :
  (forall backend,
      (forall rt, fetchJson (backend (path rt)) = VNull) ->
      init coerce circleMarker backend = all_unavailable)
  /\ ((forall rt, raised rt parseString load (net (request_of rt)) = true) ->
      init coerce circleMarker (express net parseString load)
      = all_unavailable).
Proof.
  split; [exact init_without_feeds|].
  intros H. apply init_without_feeds. intros rt.
  assert (express net parseString load (path rt)
          = Some (handle net parseString load rt)) as ->
    by (destruct rt; reflexivity).
  exact (fetch_failed (raised_fails net parseString load rt (H rt))).
Qed.

(** *** A feature without coordinates *)

Lemma render_feature_unplaced (f : value) :
  sortable f = true -> placeable f = false ->
  exists err, render_feature circleMarker f = Throw err.
Proof.
  intros Hs Hp.
  destruct (sortable_inv f Hs) as (props & m & Hprops & Hm & Km).
  pose proof (get_ok_inv _ _ Hm) as Kp.
  destruct (get_ok props "place" Kp) as [place Hplace].
  destruct (get_ok props "time" Kp) as [time Htime].
  assert (exists q, toFixed_receiver (or_else m (VNum 0)) = Ok q)
    as [q Hq].
  { destruct Km as [->|[q ->]]; [eexists; reflexivity|].
    unfold or_else. cbn [truthy].
    destruct (negb (Qeq_bool q 0)); eexists; reflexivity. }
  unfold render_feature.
  rewrite Hprops. cbn [bind]. rewrite Hm. cbn [bind].
  rewrite Hplace. cbn [bind]. rewrite Htime. cbn [bind].
  destruct (ToPrimitive time) as [time'|]; cbn [bind];
    [|eexists; reflexivity].
  rewrite Hq. cbn [bind].
  destruct (ToPrimitive (or_else place (VStr "Unknown"))) as [place'|];
    cbn [bind]; [|eexists; reflexivity].
  unfold placeable in Hp.
  destruct (get f "geometry") as [g|] eqn:Hg; cbn [bind];
    [|eexists; reflexivity].
  destruct (get g "coordinates") as [c|] eqn:Hc; cbn [bind];
    [|eexists; reflexivity].
  destruct c; try discriminate; eexists; reflexivity.
Qed.

Lemma forEach_stops (fs : list value) :
  Forall (fun f => sortable f = true) fs ->
  existsb (fun f => negb (placeable f)) fs = true ->
  forall items markers,
  exists err, forEach circleMarker fs items markers = Throw err.
Proof.
  induction 1 as [|f fs Hf Hfs IH]; cbn [existsb forEach]; [discriminate|].
  intros Hbad items markers.
  destruct (placeable f) eqn:Hp.
  - cbn [negb orb] in Hbad.
    destruct (render_feature circleMarker f) as [r|err]; cbn [bind];
      [apply IH; exact Hbad | eexists; reflexivity].
  - destruct (render_feature_unplaced f Hf Hp) as [err ->].
    eexists; reflexivity.
Qed.

(** X18.  [init] has no [try]: when the earthquake feed carries at most 50
    features, all with a number or [null] as magnitude, and one of them
    has no readable [geometry.coordinates], the earthquake block throws,
    and [init] ends there.  The tsunami, volcano and flood regions are
    never touched and the emergency button gets no click handler,
    whatever the other three feeds would have answered. *)
Theorem unlocated_feature_stops_init (backend : string -> option served)
    (fs : list value) :
  carries_features (fetchJson (backend "/api/earthquakes")) fs ->
  forallb sortable fs = true ->
  existsb (fun f => negb (placeable f)) fs = true ->
  (List.length fs <= 50)%nat ->
  exists err, init coerce circleMarker backend = stopped_at_quakes err.
Proof.
  intros Hc Hs Hbad Hlen.
  rewrite forallb_forall in Hs. apply Forall_forall in Hs.
  pose proof (sort_by_mag_perm fs) as Hperm.
  assert (exists err,
             render_quakes coerce circleMarker
               (fetchJson (backend "/api/earthquakes"))
             = Throw err) as [err Herr].
  { rewrite (render_quakes_features coerce circleMarker Hc),
      (sort_pure coerce Hs).
    cbn [bind].
    rewrite firstn_all2 by (rewrite <- (Permutation_length Hperm); exact Hlen).
    assert (existsb (fun f => negb (placeable f)) (sort_by_mag fs) = true)
      as Hbad'.
    { apply existsb_exists in Hbad. destruct Hbad as (f & Hin & Hf).
      apply existsb_exists. exists f. split; [|exact Hf].
      apply (Permutation_in _ Hperm). exact Hin. }
    destruct (forEach_stops (Permutation_Forall Hperm Hs) Hbad' [] [])
      as [err ->].
    exists err. reflexivity. }
  exists err. unfold init. rewrite Herr. reflexivity.
Qed.

End Init.

Lemma all_feeds_down_witness :
  init no_coercion numeric_markers (express offline strict_xml no_document)
  = all_unavailable.
Proof.
  apply (proj2 (all_feeds_down no_coercion numeric_markers offline
                  strict_xml no_document)).
  intros rt. destruct rt; reflexivity.
Defined.

Lemma unlocated_feature_stops_init_witness :
  exists err,
    init no_coercion numeric_markers half_located = stopped_at_quakes err.
Proof.
  apply (@unlocated_feature_stops_init no_coercion numeric_markers
           half_located
           [VObj [("properties",
                   VObj [("mag", VNum (nearest_double (45 # 10)))]);
                  ("geometry",
                   VObj [("coordinates",
                          VArr [VNum (nearest_double 10);
                                VNum (nearest_double 20)])])];
            VObj [("properties",
                   VObj [("mag", VNum (nearest_double (61 # 10)))]);
                  ("geometry", VNull)]]).
  - split; [reflexivity|].
    exists (VBool true).
    exists (VObj [("type", VStr "FeatureCollection");
                  ("features",
                   VArr [VObj [("properties",
                                VObj [("mag",
                                       VNum (nearest_double (45 # 10)))]);
                               ("geometry",
                                VObj [("coordinates",
                                       VArr [VNum (nearest_double 10);
                                             VNum (nearest_double 20)])])];
                         VObj [("properties",
                                VObj [("mag",
                                       VNum (nearest_double (61 # 10)))]);
                               ("geometry", VNull)]])]).
    repeat split; reflexivity.
  - reflexivity.
  - reflexivity.
  - apply Nat.leb_le. reflexivity.
Defined.

(** *** The earthquake feed from the upstream to the list *)




End DashboardFacts.
